(** * Stabilometric feature extraction (vaila/stabilogram_analysis.py)

    A shallow embedding of the analysers of [stabilogram_analysis.py] and
    the properties stated about them.

    Number model.  Two readings of [float64] arithmetic are used.

    Exact reading (modules [Np], [Stabilogram], [Spec]).  A NumPy
    [float64] sample that is finite is a dyadic rational, so a
    one-dimensional array is a [list Q].  Arithmetic is exact: IEEE
    rounding is abstracted away, and equality of rational results is
    [Qeq].  A square root leaves the rationals, so the two analysers
    that call [np.sqrt] return a real number ([R]).  The only non-finite
    value the modelled code can produce is NaN (mean of an empty array,
    square root of a negative number); it is the constructor [NaN] of
    [fp].  The properties proved in this reading are those rounding
    leaves alone: counts, lengths, orderings, bounds, the exception
    raised, values on inputs that are computed without rounding.

    Binary64 reading (modules [Binary64], [Np64], [Stabilogram64],
    [Spec64]).  A value is a [spec_float] of the standard library with
    53 bits of precision: signed zeros, infinities, NaN and the finite
    floats, every operation rounding to nearest, ties to even, as
    IEEE 754 prescribes, and [np.sum] adding in NumPy's order.  It is
    used where rounding decides the outcome: the lag [compute_msd]
    takes, the radius test of [compute_sway_density], the order of the
    additions in [compute_total_path_length]. *)

From Stdlib Require Import String Ascii Bool ZArith QArith Qabs Qround Qreals.
From Stdlib Require Import Reals Lra Lia List.
From Stdlib Require Import Sorted SpecFloat.
Import ListNotations.

Set Implicit Arguments.

(** ** Python values: exceptions, slices, [int()], [str.replace] *)

Module Py.

(** An exception is its class and its message.  NumPy's shape mismatch
    is a [ValueError] too; it is kept as a constructor of its own
    because its message is formatted from the two shapes. *)
Inductive exn : Type :=
| ValueError (msg : string)
| ZeroDivisionError (msg : string)
| OverflowError (msg : string)
| BroadcastError (la lb : nat).

Inductive result (A : Type) : Type :=
| Ok (a : A)
| Raise (e : exn).
Arguments Raise {A} e.

Definition bind {A B} (r : result A) (k : A -> result B) : result B :=
  match r with
  | Ok a => k a
  | Raise e => Raise e
  end.

Definition is_ValueError (e : exn) : bool :=
  match e with
  | ValueError _ | BroadcastError _ _ => true
  | ZeroDivisionError _ | OverflowError _ => false
  end.

(** Bound of a slice, as [slice.indices] computes it: a negative bound
    counts from the end, and the result is clipped to [0, len]. *)
Definition clip_index (len : nat) (k : Z) : nat :=
  let k' := if (k <? 0)%Z then (k + Z.of_nat len)%Z else k in
  Z.to_nat (Z.min (Z.max k' 0) (Z.of_nat len)).

(** [l[k:]] *)
Definition slice_from {A} (k : Z) (l : list A) : list A :=
  skipn (clip_index (length l) k) l.

(** [l[:k]] *)
Definition slice_to {A} (k : Z) (l : list A) : list A :=
  firstn (clip_index (length l) k) l.

(** [int(x)] on a finite float: truncation toward zero. *)
Definition int (x : Q) : Z := Z.quot (Qnum x) (Zpos (Qden x)).

(** [round(x)]: nearest integer, a tie going to the even neighbour. *)
Definition round (x : Q) : Z :=
  let f := Qfloor x in
  match (x - inject_Z f ?= 1 # 2)%Q with
  | Lt => f
  | Gt => (f + 1)%Z
  | Eq => if Z.even f then f else (f + 1)%Z
  end.

(** A [str] is a sequence of Unicode code points. *)
Definition str := list N.

Fixpoint str_of_string (s : string) : str :=
  match s with
  | EmptyString => []
  | String c s' => N_of_ascii c :: str_of_string s'
  end.

Fixpoint starts_with (p s : str) : bool :=
  match p, s with
  | [], _ => true
  | _ :: _, [] => false
  | a :: p', b :: s' => (a =? b)%N && starts_with p' s'
  end.

(** Left-to-right scan of [str.replace] for a non-empty [old]; [skip]
    counts the characters of a match still to be dropped. *)
Fixpoint replace_scan (old new : str) (skip : nat) (s : str) : str :=
  match s with
  | [] => []
  | c :: s' =>
      match skip with
      | S k => replace_scan old new k s'
      | O =>
          if starts_with old (c :: s')
          then new ++ replace_scan old new (length old - 1)%nat s'
          else c :: replace_scan old new 0 s'
      end
  end.

(** [s.replace(old, new)] *)
Definition replace (old new s : str) : str :=
  match old with
  | [] => new ++ flat_map (fun c => c :: new) s
  | _ :: _ => replace_scan old new 0 s
  end.

(** [d[k] = v] on an insertion-ordered [dict]. *)
Fixpoint dict_set {V} (d : list (str * V)) (k : str) (v : V) : list (str * V) :=
  match d with
  | [] => [(k, v)]
  | (k', v') :: d' =>
      if list_eq_dec N.eq_dec k' k then (k', v) :: d'
      else (k', v') :: dict_set d' k v
  end.

End Py.

Export Py.

Notation "x <- r ;; k" := (bind r (fun x => k))
  (at level 61, r at next level, right associativity).

(** ** NumPy: one-dimensional arrays *)

Module Np.

(** A floating-point result: a number or NaN. *)
Inductive fp (A : Type) : Type :=
| Num (a : A)
| NaN.
Arguments NaN {A}.

Fixpoint zip_with {A B C} (f : A -> B -> C) (a : list A) (b : list B) : list C :=
  match a, b with
  | x :: a', y :: b' => f x y :: zip_with f a' b'
  | _, _ => []
  end.

(** An element-wise binary operation on two arrays of shapes [(la,)]
    and [(lb,)]: equal shapes pair up, a shape [(1,)] is stretched,
    anything else does not broadcast. *)
Definition broadcast {A B} (f : A -> A -> B) (a b : list A) : result (list B) :=
  if Nat.eqb (length a) (length b) then Ok (zip_with f a b)
  else match a, b with
       | [x], _ => Ok (map (f x) b)
       | _, [y] => Ok (map (fun x => f x y) a)
       | _, _ => Raise (BroadcastError (length a) (length b))
       end.

Definition sq (x : Q) : Q := (x * x)%Q.

(** [a ** 2] *)
Definition square (a : list Q) : list Q := map sq a.

(** [np.sum] of a float array. *)
Definition sum (a : list Q) : Q := fold_right Qplus 0%Q a.

(** [.sum()] of a boolean array. *)
Definition count_true (a : list bool) : nat :=
  fold_right (fun (b : bool) (n : nat) => if b then S n else n) O a.

Definition of_nat (n : nat) : Q := inject_Z (Z.of_nat n).

(** [np.mean]: NaN (with a warning, not an exception) on an empty array. *)
Definition mean (a : list Q) : fp Q :=
  match a with
  | [] => NaN
  | _ :: _ => Num (sum a / of_nat (length a))%Q
  end.

(** [np.diff]: [out[i] = a[i+1] - a[i]]. *)
Definition diff (a : list Q) : list Q :=
  zip_with (fun x y => (y - x)%Q) a (tl a).

(** [np.sqrt] of a scalar: NaN for a negative argument. *)
Definition sqrt (x : Q) : fp R :=
  if Qlt_le_dec x 0%Q then NaN else Num (R_sqrt.sqrt (Q2R x)).

Definition sqrt_fp (x : fp Q) : fp R :=
  match x with
  | Num q => sqrt q
  | NaN => NaN
  end.

Definition add_fp (x y : fp R) : fp R :=
  match x, y with
  | Num a, Num b => Num (a + b)%R
  | _, _ => NaN
  end.

(** [np.sum] of the results of [np.sqrt]; NaN is absorbing. *)
Definition sum_fp (a : list (fp R)) : fp R :=
  fold_right add_fp (Num 0%R) a.

End Np.

(** ** SciPy: [find_peaks] and [savgol_filter] *)

Module Scipy.

(** [_local_maxima_1d]: a peak is a sample, or a flat run of samples,
    strictly above both neighbours; a flat run reports its midpoint.
    [i] is the index of the head of [rest], [prev] the sample before
    it, and [left] the start of the rising plateau [prev] lies on. *)
Fixpoint local_maxima (i : nat) (left : option nat) (prev : Q) (rest : list Q)
  : list nat :=
  match rest with
  | [] => []
  | x :: rest' =>
      match (prev ?= x)%Q with
      | Lt => local_maxima (S i) (Some i) x rest'
      | Eq => local_maxima (S i) left x rest'
      | Gt =>
          match left with
          | Some l => Nat.div (l + (i - 1))%nat 2 :: local_maxima (S i) None x rest'
          | None => local_maxima (S i) None x rest'
          end
      end
  end.

(** [find_peaks(x)] with no condition: the indices of the local maxima.
    The only exception it can raise is for an array that is not
    one-dimensional, which the type [list Q] excludes. *)
Definition find_peaks (x : list Q) : result (list nat) :=
  match x with
  | [] => Ok []
  | x0 :: rest => Ok (local_maxima 1 None x0 rest)
  end.

Section Savgol.

(** The numerical kernel of the Savitzky-Golay filter (least-squares
    fit and convolution) belongs to SciPy; [savgol_sample x w p d
    delta i] stands for sample [i] of its output. *)
Variable savgol_sample : list Q -> Z -> Z -> Z -> Q -> nat -> Q.

(** [savgol_filter(x, window_length, polyorder, deriv, delta)] in the
    default mode ["interp"]: SciPy's argument checks, in its order,
    then an output of the shape of [x]. *)
Definition savgol_filter (x : list Q) (window_length polyorder deriv : Z)
           (delta : Q) : result (list Q) :=
  if (polyorder >=? window_length)%Z then
    Raise (ValueError "polyorder must be less than window_length.")
  else if (window_length <? 1)%Z then
    Raise (ValueError "pos must be nonnegative and less than window_length.")
  else if (window_length >? Z.of_nat (length x))%Z then
    Raise (ValueError
      "If mode is 'interp', window_length must be less than or equal to the size of x.")
  else if (polyorder <? 0)%Z then
    Raise (ValueError "expected deg >= 0")
  else
    Ok (map (savgol_sample x window_length polyorder deriv delta)
            (seq 0 (length x))).

End Savgol.

End Scipy.

(** ** The analysers of [stabilogram_analysis.py], in exact arithmetic *)

Module Stabilogram.

Import Np Scipy.

(** Comparisons of an array with a scalar, element by element. *)
Definition ltb (x y : Q) : bool :=
  match (x ?= y)%Q with Lt => true | _ => false end.

Definition leb (x y : Q) : bool :=
  match (x ?= y)%Q with Gt => false | _ => true end.

(** [a[i] = v] on an array; the callers below stay in range. *)
Fixpoint set_item {A} (a : list A) (i : nat) (v : A) : list A :=
  match a, i with
  | [], _ => []
  | _ :: a', O => v :: a'
  | x :: a', S i' => x :: set_item a' i' v
  end.

Definition compute_rms (cop_x cop_y : list Q) : fp R * fp R :=
  let rms_ml := sqrt_fp (mean (square cop_x)) in
  let rms_ap := sqrt_fp (mean (square cop_y)) in
  (rms_ml, rms_ap).

(** The window length [compute_speed] hands to the filter: clamp, then
    make odd ([//] and [%] are the floor division and modulo of [Z]). *)
Definition effective_window_length (n : nat) (window_length : Z) : Z :=
  let window_length := Z.min window_length (Z.of_nat n / 2 * 2 - 1) in
  if (window_length mod 2 =? 0)%Z then (window_length + 1)%Z else window_length.

Section Speed.

Variable savgol_sample : list Q -> Z -> Z -> Z -> Q -> nat -> Q.

(** [fs] is a Python [float], as documented: [1 / fs] raises for 0.
    (A NumPy scalar 0 would give [inf] instead; the properties below
    are stated for [fs] other than 0.) *)
Definition compute_speed (cop_x cop_y : list Q) (fs : Q)
           (window_length polyorder : Z) : result (list Q * list Q) :=
  if Qeq_bool fs 0 then Raise (ZeroDivisionError "float division by zero")
  else
    let delta := (1 / fs)%Q in
    let window_length := effective_window_length (length cop_x) window_length in
    speed_ml <- savgol_filter savgol_sample cop_x window_length polyorder 1 delta ;;
    speed_ap <- savgol_filter savgol_sample cop_y window_length polyorder 1 delta ;;
    Ok (speed_ml, speed_ap).

End Speed.

(** The error [compute_msd] raises by itself. *)
Definition delta_t_too_large : exn :=
  ValueError "delta_t is too large for the signal length.".

Definition compute_msd (S_n : list Q) (fs delta_t : Q) : result (fp Q) :=
  let delta_n := int (delta_t * fs) in
  let N := length S_n in
  if (delta_n >=? Z.of_nat N)%Z then Raise delta_t_too_large
  else
    diff <- broadcast Qminus (slice_from delta_n S_n) (slice_to (- delta_n) S_n) ;;
    Ok (mean (square diff)).

Definition count_zero_crossings (signal : list Q) : result nat :=
  prod <- broadcast Qmult (slice_to (-1) signal) (slice_from 1 signal) ;;
  Ok (count_true (map (fun p => ltb p 0) prod)).

Definition count_peaks (signal : list Q) : result nat :=
  peaks <- find_peaks signal ;;
  Ok (length peaks).

(** Sample [t] of the sway density: the samples within [radius] of
    [cop_signal[t]], counted over the whole array and divided by [N]. *)
Definition sway_density_at (cop_signal : list Q) (radius : Q) (t : nat) : Q :=
  let distances := map Qabs (map (fun x => x - nth t cop_signal 0)%Q cop_signal) in
  (of_nat (count_true (map (fun d => leb d radius) distances))
   / of_nat (length cop_signal))%Q.

Definition compute_sway_density (cop_signal : list Q) (fs radius : Q) : list Q :=
  let N := length cop_signal in
  fold_left
    (fun sway_density t => set_item sway_density t (sway_density_at cop_signal radius t))
    (seq 0 N) (repeat 0%Q N).

Definition compute_total_path_length (cop_x cop_y : list Q) : result (fp R) :=
  let diffs_x := diff cop_x in
  let diffs_y := diff cop_y in
  squares <- broadcast Qplus (square diffs_x) (square diffs_y) ;;
  let distances := map Np.sqrt squares in
  Ok (sum_fp distances).

(** The characters [save_metrics_to_csv] rewrites. *)
Definition space : str := str_of_string " ".
Definition lparen : str := str_of_string "(".
Definition rparen : str := str_of_string ")".
Definition superscript_two : str := [178%N].    (* U+00B2 *)
Definition middle_dot : str := [183%N].         (* U+00B7 *)
Definition superscript_three : str := [179%N].  (* U+00B3 *)

(** The column name the loop of [save_metrics_to_csv] derives from a
    metric label. *)
Definition new_key (key : str) : str :=
  replace superscript_three (str_of_string "3")
    (replace middle_dot (str_of_string "_")
      (replace superscript_two (str_of_string "2")
        (replace rparen []
          (replace lparen (str_of_string "_")
            (replace space (str_of_string "_") key))))).

(** The dictionary the loop builds. *)
Definition standardized_metrics {V} (metrics_dict : list (str * V)) : list (str * V) :=
  fold_left
    (fun standardized_metrics kv =>
       dict_set standardized_metrics (new_key (fst kv)) (snd kv))
    metrics_dict [].

(** The one-row table written to the CSV file: the header row (the keys
    of the dictionary, in order) and the data row. *)
Definition save_metrics_to_csv {V} (metrics_dict : list (str * V)) : list str * list V :=
  let df := standardized_metrics metrics_dict in
  (map fst df, map snd df).

End Stabilogram.

Import Np Scipy Stabilogram.

(** ** The properties, in the words of the specification *)

Module Spec.

(** Mean of the squared differences [S[i+k] - S[i]] over the indices
    [0 <= i < N - k]. *)
Definition lagged_msd (S : list Q) (k : nat) : Q :=
  (sum (map (fun i => sq (nth (i + k) S 0 - nth i S 0)) (seq 0 (length S - k)))
   / of_nat (length S - k))%Q.

(** Sample [j] lies within [r] of sample [t]. *)
Definition within (S : list Q) (r : Q) (t j : nat) : bool :=
  leb (Qabs (nth j S 0 - nth t S 0)) r.

(** Number of the samples other than [t] that lie within [r] of it. *)
Definition others_within (S : list Q) (r : Q) (t : nat) : nat :=
  length (filter (fun j => negb (Nat.eqb j t) && within S r t j)
                 (seq 0 (length S))).

(** Number of all the samples, [t] included, that lie within [r] of
    sample [t]. *)
Definition all_within (S : list Q) (r : Q) (t : nat) : nat :=
  length (filter (within S r t) (seq 0 (length S))).

(** That number as a fraction of the [N] samples. *)
Definition fraction_of_all (S : list Q) (r : Q) (t : nat) : Q :=
  (of_nat (all_within S r t) / of_nat (length S))%Q.



(** Euclidean distance between two points of the plane. *)
Definition distance (p q : R * R) : R :=
  R_sqrt.sqrt ((fst q - fst p) * (fst q - fst p) + (snd q - snd p) * (snd q - snd p)).

(** Sum of the distances between consecutive points. *)
Fixpoint path_length (pts : list (R * R)) : R :=
  match pts with
  | p :: (q :: _) as rest => (distance p q + path_length rest)%R
  | _ => 0%R
  end.

Definition points (xs ys : list Q) : list (R * R) :=
  combine (map Q2R xs) (map Q2R ys).

(** What [new_key] makes of one character. *)
Definition token (c : N) : str :=
  if (c =? 32)%N then str_of_string "_"
  else if (c =? 40)%N then str_of_string "_"
  else if (c =? 41)%N then []
  else if (c =? 178)%N then str_of_string "2"
  else if (c =? 183)%N then str_of_string "_"
  else if (c =? 179)%N then str_of_string "3"
  else [c].

End Spec.

Import Spec.

(** ** IEEE 754 binary64 *)

Module Binary64.

(** A [float64] value, as the standard library specifies the format:
    signed zeros and infinities, NaN, and the finite values
    [(-1)^s * m * 2^e].  The operations round to nearest, ties to even. *)
Definition float64 : Type := spec_float.

Definition prec : Z := 53.
Definition emax : Z := 1024.

Definition add : float64 -> float64 -> float64 := SFadd prec emax.
Definition sub : float64 -> float64 -> float64 := SFsub prec emax.
Definition mul : float64 -> float64 -> float64 := SFmul prec emax.
Definition div : float64 -> float64 -> float64 := SFdiv prec emax.
Definition sqrt : float64 -> float64 := SFsqrt prec emax.
Definition abs : float64 -> float64 := SFabs.

(** [x <= y] and [x < y]; a comparison with NaN is false. *)
Definition leb : float64 -> float64 -> bool := SFleb.
Definition ltb : float64 -> float64 -> bool := SFltb.

Definition zero : float64 := S754_zero false.
Definition negative_zero : float64 := S754_zero true.
Definition nan : float64 := S754_nan.

Definition finite (x : float64) : bool :=
  match x with
  | S754_zero _ | S754_finite _ _ _ => true
  | S754_infinity _ | S754_nan => false
  end.

(** [float(n)] for an integer [n]. *)
Definition of_int (n : Z) : float64 := binary_normalize prec emax n 0 false.

Definition of_nat (n : nat) : float64 := of_int (Z.of_nat n).

(** The float a decimal literal denotes, the literal being the fraction
    [n / d]: the float nearest to it. *)
Definition ratio (n d : Z) : float64 := div (of_int n) (of_int d).

(** The number a finite float stands for. *)
Definition value (x : float64) : option Q :=
  match x with
  | S754_zero _ => Some 0%Q
  | S754_finite s m e => Some (inject_Z (cond_Zopp s (Zpos m)) * 2 ^ e)%Q
  | S754_infinity _ | S754_nan => None
  end.

(** [int(x)] on a Python float: the value truncated toward zero; an
    infinity or NaN cannot be converted. *)
Definition int (x : float64) : result Z :=
  match x with
  | S754_nan => Raise (ValueError "cannot convert float NaN to integer")
  | S754_infinity _ =>
      Raise (OverflowError "cannot convert float infinity to integer")
  | S754_zero _ => Ok 0%Z
  | S754_finite s m e =>
      Ok (Py.int (inject_Z (cond_Zopp s (Zpos m)) * 2 ^ e)%Q)
  end.

End Binary64.

(** ** NumPy on [float64] arrays *)

Module Np64.

Import Binary64.

(** [a ** 2], computed as [a * a]. *)
Definition sq (x : float64) : float64 := mul x x.
Definition square (a : list float64) : list float64 := map sq a.

(** [np.diff]: [out[i] = a[i+1] - a[i]]. *)
Definition diff (a : list float64) : list float64 :=
  Np.zip_with (fun x y => sub y x) a (tl a).

(** [res += a[i]] over the elements of [a], in order. *)
Definition accumulate (res : float64) (a : list float64) : float64 :=
  fold_left add a res.

(** [((r[0] + r[1]) + (r[2] + r[3])) + ((r[4] + r[5]) + (r[6] + r[7]))] *)
Definition lanes (r : list float64) : float64 :=
  let r_ (k : nat) := nth k r zero in
  add (add (add (r_ 0%nat) (r_ 1%nat)) (add (r_ 2%nat) (r_ 3%nat)))
      (add (add (r_ 4%nat) (r_ 5%nat)) (add (r_ 6%nat) (r_ 7%nat))).

(** The unrolled loop of NumPy's pairwise summation on a block of 8 to
    128 elements: eight running sums [r] take the elements eight at a
    time, are added up, and the rest of the block is added in order. *)
Fixpoint unrolled (fuel : nat) (r a : list float64) : float64 :=
  match fuel with
  | S fuel' =>
      if (8 <=? length a)%nat
      then unrolled fuel' (Np.zip_with add r (firstn 8 a)) (skipn 8 a)
      else accumulate (lanes r) a
  | O => accumulate (lanes r) a
  end.

(** NumPy's pairwise summation of a contiguous array: fewer than 8
    elements are added in order, starting from [-0.0]; up to 128 go
    through the unrolled loop; a longer array is split in two halves,
    the first a multiple of 8 long.  [fuel] bounds the depth of the
    splitting. *)
Fixpoint pairwise_sum (fuel : nat) (a : list float64) : float64 :=
  let n := length a in
  if (n <? 8)%nat then accumulate negative_zero a
  else if (n <=? 128)%nat then unrolled n (firstn 8 a) (skipn 8 a)
  else
    match fuel with
    | S fuel' =>
        let n2 := (n / 2)%nat in
        let n2 := (n2 - n2 mod 8)%nat in
        add (pairwise_sum fuel' (firstn n2 a)) (pairwise_sum fuel' (skipn n2 a))
    | O => unrolled n (firstn 8 a) (skipn 8 a)
    end.

(** [np.sum] of a float array; the sum of no element is [0.0].  (The
    initial value of the reduction can only change the sign of a sum
    that is zero, which no property below depends on.) *)
Definition sum (a : list float64) : float64 :=
  match a with
  | [] => zero
  | _ :: _ => pairwise_sum (length a) a
  end.

(** [np.mean]: the sum divided by the number of elements, which is NaN
    (with a warning, not an exception) for an empty array. *)
Definition mean (a : list float64) : float64 :=
  div (sum a) (of_nat (length a)).

End Np64.

(** ** The analysers in binary64 arithmetic

    [compute_msd], [compute_sway_density] and
    [compute_total_path_length] again, line by line, with every
    arithmetic operation rounded as [float64] rounds it.  [fs] and
    [delta_t] are Python floats, the series are [float64] arrays. *)

Module Stabilogram64.

Import Binary64 Np64.

Definition compute_msd (S_n : list float64) (fs delta_t : float64)
  : result float64 :=
  delta_n <- int (mul delta_t fs) ;;
  let N := length S_n in
  if (delta_n >=? Z.of_nat N)%Z then Raise delta_t_too_large
  else
    diff <- broadcast sub (slice_from delta_n S_n) (slice_to (- delta_n) S_n) ;;
    Ok (mean (square diff)).

(** Sample [t] of the sway density. *)
Definition sway_density_at (cop_signal : list float64) (radius : float64)
           (t : nat) : float64 :=
  let distances :=
    map abs (map (fun x => sub x (nth t cop_signal zero)) cop_signal) in
  div (of_nat (count_true (map (fun d => leb d radius) distances)))
      (of_nat (length cop_signal)).

Definition compute_sway_density (cop_signal : list float64)
           (fs radius : float64) : list float64 :=
  let N := length cop_signal in
  fold_left
    (fun sway_density t =>
       set_item sway_density t (sway_density_at cop_signal radius t))
    (seq 0 N) (repeat zero N).

Definition compute_total_path_length (cop_x cop_y : list float64)
  : result float64 :=
  let diffs_x := diff cop_x in
  let diffs_y := diff cop_y in
  squares <- broadcast add (square diffs_x) (square diffs_y) ;;
  let distances := map sqrt squares in
  Ok (sum distances).

End Stabilogram64.

(** ** The properties in binary64 arithmetic, in the words of the
    specification *)

Module Spec64.

Import Binary64 Np64.

(** Mean of the squared differences [S[i+k] - S[i]] over the indices
    [0 <= i < N - k]. *)
Definition lagged_msd (S : list float64) (k : nat) : float64 :=
  mean (map (fun i => sq (sub (nth (i + k) S zero) (nth i S zero)))
            (seq 0 (length S - k))).

(** The lag in samples as the specification words it: the product
    rounded to the nearest integer. *)
Definition rounded_delta_n (fs delta_t : float64) : option Z :=
  option_map round (value (mul delta_t fs)).

(** Sample [j] lies within [r] of sample [t]. *)
Definition within (S : list float64) (r : float64) (t j : nat) : bool :=
  leb (abs (sub (nth j S zero) (nth t S zero))) r.

(** Number of the samples other than [t] that lie within [r] of it. *)
Definition others_within (S : list float64) (r : float64) (t : nat) : nat :=
  length (filter (fun j => negb (Nat.eqb j t) && within S r t j)
                 (seq 0 (length S))).

(** Fraction of the samples other than [t] that lie within [r] of it. *)
Definition fraction_of_others (S : list float64) (r : float64) (t : nat)
  : float64 :=
  div (of_nat (others_within S r t)) (of_nat (length S - 1)).

(** Number of all the samples, [t] included, that lie within [r] of
    sample [t]. *)
Definition all_within (S : list float64) (r : float64) (t : nat) : nat :=
  length (filter (within S r t) (seq 0 (length S))).

(** That number as a fraction of the [N] samples. *)
Definition fraction_of_all (S : list float64) (r : float64) (t : nat)
  : float64 :=
  div (of_nat (all_within S r t)) (of_nat (length S)).

(** Euclidean distance between two points of the plane. *)
Definition distance (p q : float64 * float64) : float64 :=
  sqrt (add (sq (sub (fst q) (fst p))) (sq (sub (snd q) (snd p)))).


End Spec64.

(** ** The scenario of the specification *)

Definition scenario_x : list Q := [0; 1; 0; -1; 0; 1; 0; -1]%Q.
Definition scenario_y : list Q := repeat 0%Q 8.


(** The metric label ["RMS (cm²)"] of the interface example. *)
Definition rms_label : str :=
  str_of_string "RMS (cm" ++ superscript_two ++ str_of_string ")".

(** One rewriting step of [new_key], character by character. *)
Definition rewrite_char (a : N) (new : str) (s : str) : str :=
  flat_map (fun c => if (c =? a)%N then new else [c]) s.

(** The six characters [new_key] removes. *)
Definition rewritten (c : N) : bool :=
  existsb (N.eqb c) [32; 40; 41; 178; 183; 179]%N.

(** ** Notions used to state further properties of the analysers *)

Module Derived.

(** Number of adjacent pairs of samples whose product is negative. *)
Fixpoint sign_changes (l : list Q) : nat :=
  match l with
  | a :: (b :: _) as t => ((if ltb (a * b) 0 then 1 else 0) + sign_changes t)%nat
  | _ => 0%nat
  end.

(** Number of samples strictly above both of their neighbours. *)
Fixpoint strict_maxima (l : list Q) : nat :=
  match l with
  | a :: (b :: c :: _) as t =>
      ((if ltb a b && ltb c b then 1 else 0) + strict_maxima t)%nat
  | _ => 0%nat
  end.

(** No two neighbouring samples are equal. *)
Fixpoint adjacent_distinct (l : list Q) : Prop :=
  match l with
  | a :: (b :: _) as t => ~ (a == b)%Q /\ adjacent_distinct t
  | _ => True
  end.

(** The series never decreases, or never increases. *)
Fixpoint nondecreasing (l : list Q) : Prop :=
  match l with
  | a :: (b :: _) as t => (a <= b)%Q /\ nondecreasing t
  | _ => True
  end.

Fixpoint nonincreasing (l : list Q) : Prop :=
  match l with
  | a :: (b :: _) as t => (b <= a)%Q /\ nonincreasing t
  | _ => True
  end.

(** [d[k]] on an insertion-ordered [dict]; [None] stands for a missing
    key. *)
Fixpoint dict_get {V} (d : list (str * V)) (k : str) : option V :=
  match d with
  | [] => None
  | (k', v) :: d' =>
      if list_eq_dec N.eq_dec k' k then Some v else dict_get d' k
  end.

(** The metric label standardises to the column name [k]. *)
Definition names_column {V} (k : str) (kv : str * V) : bool :=
  if list_eq_dec N.eq_dec (new_key (fst kv)) k then true else false.

(** The value of the last metric whose label standardises to [k]. *)
Definition last_value {V} (metrics_dict : list (str * V)) (k : str) : option V :=
  option_map snd (find (names_column k) (rev metrics_dict)).

End Derived.

Import Derived.

(** ** resize_video.py: the crop region and the region of interest *)

Module ResizeVideo.

(** The region [resize_with_opencv] cuts out of each frame: the region
    of interest brought inside a frame of [width] by [height] pixels. *)
Definition crop_region (width height : Z) (roi : Z * Z * Z * Z) : Z * Z * Z * Z :=
  let '(x, y, w, h) := roi in
  let x := Z.max 0 (Z.min x (width - 1)) in
  let y := Z.max 0 (Z.min y (height - 1)) in
  let w := Z.min w (width - x) in
  let h := Z.min h (height - y) in
  (x, y, w, h).

(** The mouse events [ROISelector.draw_rectangle] tells apart. *)
Inductive mouse_event : Type :=
| EVENT_LBUTTONDOWN
| EVENT_MOUSEMOVE
| EVENT_LBUTTONUP
| EVENT_OTHER.

(** The fields of [ROISelector] the mouse callback reads and writes. *)
Record ROISelector : Type := {
  roi : option (Z * Z * Z * Z);
  roi_selected : bool;
  drawing : bool;
  ix : Z;
  iy : Z
}.

(** [ROISelector.__init__] *)
Definition init : ROISelector :=
  {| roi := None; roi_selected := false; drawing := false;
     ix := (-1)%Z; iy := (-1)%Z |}.

(** [ROISelector.draw_rectangle]; drawing on the displayed image is left
    out. *)
Definition draw_rectangle (self : ROISelector) (event : mouse_event) (x y : Z)
  : ROISelector :=
  match event with
  | EVENT_LBUTTONDOWN =>
      {| roi := roi self; roi_selected := roi_selected self;
         drawing := true; ix := x; iy := y |}
  | EVENT_MOUSEMOVE => self
  | EVENT_LBUTTONUP =>
      let roi_x := Z.min (ix self) x in
      let roi_y := Z.min (iy self) y in
      let roi_w := Z.abs (x - ix self) in
      let roi_h := Z.abs (y - iy self) in
      if ((roi_w >? 0) && (roi_h >? 0))%Z then
        {| roi := Some (roi_x, roi_y, roi_w, roi_h); roi_selected := true;
           drawing := false; ix := ix self; iy := iy self |}
      else
        {| roi := roi self; roi_selected := roi_selected self;
           drawing := false; ix := ix self; iy := iy self |}
  | EVENT_OTHER => self
  end.

(** The callback run over a sequence of mouse events. *)
Definition mouse_events (self : ROISelector) (events : list (mouse_event * Z * Z))
  : ROISelector :=
  fold_left (fun s e => draw_rectangle s (fst (fst e)) (snd (fst e)) (snd e))
            events self.

End ResizeVideo.

Import ResizeVideo.

(** What holds of an [ROISelector] at any time: a region is recorded
    exactly when [roi_selected] is set, and a recorded region has a
    positive width and height. *)
Definition selector_ok (s : ROISelector) : Prop :=
  (roi_selected s = true <-> roi s <> None) /\
  (forall x y w h : Z, roi s = Some (x, y, w, h) -> (0 < w)%Z /\ (0 < h)%Z).

(** ** The two plot functions of [stabilogram_analysis.py] *)

Module Plots.

(** What a figure shows, as far as the plot functions compute it. *)
Inductive artist : Type :=
| Curve (x y : list Q)          (* [plt.plot], [plt.semilogy] *)
| HLine (y : Q)                 (* [plt.axhline] at a minimum or maximum *)
| HLineRms (y : Np.fp R)        (* [plt.axhline] at an RMS *)
| VLine (x : Np.fp Q)           (* [plt.axvline] *)
| Marker (x y : Q).             (* [plt.scatter] of one point *)

(** The exceptions the plot functions can meet, all of them raised by
    NumPy or Matplotlib: [ValueError] for a reduction of an empty array
    and for curves of different lengths, [IndexError] for an index out
    of range. *)
Inductive error : Type :=
| ZeroSizeArray
| ShapeMismatch (lx ly : nat)
| IndexError (i n : nat).

(** The state of [matplotlib.pyplot]: the open figures, the current one
    first, and the files written so far with what they show. *)
Record pyplot : Type := {
  figures : list (list artist);
  saved : list (str * list artist)
}.

Inductive run (A : Type) : Type :=
| Done (s : pyplot) (a : A)
| Failed (s : pyplot) (e : error).
Arguments Failed {A} s e.

Definition action (A : Type) : Type := pyplot -> run A.

Definition ret {A} (a : A) : action A := fun s => Done s a.

Definition raise {A} (e : error) : action A := fun s => Failed s e.

Definition bind {A B} (m : action A) (k : A -> action B) : action B :=
  fun s =>
    match m s with
    | Done s' a => k a s'
    | Failed s' e => Failed s' e
    end.

Definition seq_ {B} (m : action unit) (k : action B) : action B :=
  bind m (fun _ => k).

(** [plt.figure()] *)
Definition figure : action unit :=
  fun s => Done {| figures := [] :: figures s; saved := saved s |} tt.

(** A drawing call: the artist goes to the current figure, which is
    created when there is none. *)
Definition draw (a : artist) : action unit :=
  fun s =>
    Done {| figures := match figures s with
                       | [] => [[a]]
                       | fig :: others => (fig ++ [a]) :: others
                       end;
            saved := saved s |} tt.

(** [plt.plot(x, y)] and [plt.semilogy(x, y)] for one-dimensional data. *)
Definition plot (x y : list Q) : action unit :=
  if Nat.eqb (length x) (length y) then draw (Curve x y)
  else raise (ShapeMismatch (length x) (length y)).

(** [plt.savefig(name)]; the file system is taken to accept the file. *)
Definition savefig (name : str) : action unit :=
  fun s =>
    match figures s with
    | [] => Done {| figures := [[]]; saved := saved s ++ [(name, [])] |} tt
    | fig :: _ => Done {| figures := figures s; saved := saved s ++ [(name, fig)] |} tt
    end.

(** [plt.close()] *)
Definition close : action unit :=
  fun s => Done {| figures := tl (figures s); saved := saved s |} tt.

(** [np.min], [np.max]: a [ValueError] on an empty array.  Of equal
    values the first is kept. *)
Definition np_min (a : list Q) : action Q :=
  match a with
  | [] => raise ZeroSizeArray
  | x :: a' => ret (fold_left (fun m y => if ltb y m then y else m) a' x)
  end.

Definition np_max (a : list Q) : action Q :=
  match a with
  | [] => raise ZeroSizeArray
  | x :: a' => ret (fold_left (fun m y => if ltb m y then y else m) a' x)
  end.

(** [np.argmax]: the index of the first maximum. *)
Fixpoint argmax_from (best_i : nat) (best : Q) (i : nat) (a : list Q) : nat :=
  match a with
  | [] => best_i
  | y :: a' =>
      if ltb best y then argmax_from i y (S i) a'
      else argmax_from best_i best (S i) a'
  end.

Definition np_argmax (a : list Q) : action nat :=
  match a with
  | [] => raise ZeroSizeArray
  | x :: a' => ret (argmax_from 0 x 1 a')
  end.

(** [a[i]] for an index that is not negative. *)
Definition item (a : list Q) (i : nat) : action Q :=
  match nth_error a i with
  | Some x => ret x
  | None => raise (IndexError i (length a))
  end.

Fixpoint insert_sorted (x : Q) (a : list Q) : list Q :=
  match a with
  | [] => [x]
  | y :: a' => if leb x y then x :: a else y :: insert_sorted x a'
  end.

Definition sort (a : list Q) : list Q := fold_right insert_sorted [] a.

(** [np.median]: the middle of the sorted array, the mean of the two
    middle values for an even length, NaN for an empty array. *)
Definition np_median (a : list Q) : Np.fp Q :=
  let s := sort a in
  let n := length a in
  match n with
  | O => Np.NaN
  | _ =>
      if Nat.even n
      then Np.Num ((nth (Nat.div n 2 - 1) s 0 + nth (Nat.div n 2) s 0) / 2)%Q
      else Np.Num (nth (Nat.div n 2) s 0%Q)
  end.

Definition stabilogram_png : str := str_of_string "_stabilogram.png".
Definition stabilogram_svg : str := str_of_string "_stabilogram.svg".
Definition psd_png : str := str_of_string "_psd.png".
Definition psd_svg : str := str_of_string "_psd.svg".

(** One subplot of [plot_stabilogram]: the series and its three
    horizontal lines. *)
Definition stabilogram_axis (time cop : list Q) : action unit :=
  seq_ (plot time cop)
  (bind (np_min cop) (fun min_ =>
   bind (np_max cop) (fun max_ =>
   let rms := Np.sqrt_fp (Np.mean (Np.square cop)) in
   seq_ (draw (HLine min_))
   (seq_ (draw (HLine max_))
         (draw (HLineRms rms)))))).

(** [plot_stabilogram]: the calls that draw, compute, save or close, in
    the order of the source.  Titles, labels, grid, legend and layout
    change nothing of the state kept here and cannot raise. *)
Definition plot_stabilogram (time cop_x cop_y : list Q) (output_path : str)
  : action unit :=
  seq_ figure
  (seq_ (stabilogram_axis time cop_x)
  (seq_ (stabilogram_axis time cop_y)
  (seq_ (savefig (output_path ++ stabilogram_png))
  (seq_ (savefig (output_path ++ stabilogram_svg))
        close)))).

(** [plot_power_spectrum], in the same way. *)
Definition plot_power_spectrum (freqs_ml psd_ml freqs_ap psd_ap : list Q)
           (output_path : str) : action unit :=
  seq_ figure
  (seq_ (plot freqs_ml psd_ml)
  (seq_ (plot freqs_ap psd_ap)
  (bind (np_max psd_ml) (fun max_psd_ml =>
   bind (np_argmax psd_ml) (fun i_ml =>
   bind (item freqs_ml i_ml) (fun max_freq_ml =>
   bind (np_max psd_ap) (fun max_psd_ap =>
   bind (np_argmax psd_ap) (fun i_ap =>
   bind (item freqs_ap i_ap) (fun max_freq_ap =>
   seq_ (draw (Marker max_freq_ml max_psd_ml))
   (seq_ (draw (Marker max_freq_ap max_psd_ap))
   (let median_freq_ml := np_median freqs_ml in
    let median_freq_ap := np_median freqs_ap in
    seq_ (draw (VLine median_freq_ml))
    (seq_ (draw (VLine median_freq_ap))
    (seq_ (savefig (output_path ++ psd_png))
    (seq_ (savefig (output_path ++ psd_svg))
          close)))))))))))))).

End Plots.

(** Index [i] is where the first maximum of [a] is. *)
Definition first_maximum (a : list Q) (i : nat) : Prop :=
  (i < length a)%nat /\
  (forall j, (j < length a)%nat -> (nth j a 0 <= nth i a 0)%Q) /\
  (forall j, (j < i)%nat -> (nth j a 0 < nth i a 0)%Q).

Unset Implicit Arguments.

(** ** Facts about the NumPy operations *)

Section NumpyFacts.

Lemma zip_with_length {A B C} (f : A -> B -> C) (a : list A) (b : list B) :
  length (zip_with f a b) = Nat.min (length a) (length b).
Proof.
  revert b; induction a as [|x a IH]; intros [|y b]; simpl; auto.
Qed.

Lemma broadcast_same_length {A B} (f : A -> A -> B) (a b : list A) :
  length a = length b -> broadcast f a b = Ok (zip_with f a b).
Proof.
  intros H. unfold broadcast. rewrite H, Nat.eqb_refl. reflexivity.
Qed.

Lemma diff_cons2 (x y : Q) (l : list Q) :
  diff (x :: y :: l) = (y - x)%Q :: diff (y :: l).
Proof. reflexivity. Qed.

Lemma diff_length (a : list Q) : length (diff a) = (length a - 1)%nat.
Proof.
  unfold diff. rewrite zip_with_length. destruct a; cbn [length tl]; lia.
Qed.

Lemma sqrt_Num (x : Q) : (0 <= x)%Q -> Np.sqrt x = Num (R_sqrt.sqrt (Q2R x)).
Proof.
  intros H. unfold Np.sqrt. destruct (Qlt_le_dec x 0) as [Hlt|_]; [|reflexivity].
  exfalso. apply (Qlt_not_le _ _ Hlt H).
Qed.

Lemma sq_nonneg (x : Q) : (0 <= sq x)%Q.
Proof.
  unfold sq. apply Rle_Qle. rewrite Q2R_mult, RMicromega.Q2R_0.
  exact (Rle_0_sqr (Q2R x)).
Qed.

(** The square root the path length takes of one step. *)
Lemma sqrt_step (x1 y1 x2 y2 : Q) :
  Np.sqrt (sq (x2 - x1) + sq (y2 - y1))
  = Num (distance (Q2R x1, Q2R y1) (Q2R x2, Q2R y2)).
Proof.
  rewrite sqrt_Num.
  - unfold distance, sq. simpl.
    rewrite Q2R_plus, !Q2R_mult, !Q2R_minus. reflexivity.
  - pose proof (sq_nonneg (x2 - x1)). pose proof (sq_nonneg (y2 - y1)).
    apply Rle_Qle. rewrite Q2R_plus.
    apply Qle_Rle in H, H0. rewrite RMicromega.Q2R_0 in *. lra.
Qed.

End NumpyFacts.

(** ** Facts about binary64 arithmetic *)

Section Binary64Facts.

Import Binary64.





Lemma add_comm (a b : float64) : add a b = add b a.
Proof.
  destruct a as [sa|sa| |sa ma ea], b as [sb|sb| |sb mb eb];
    try reflexivity;
    try (destruct sa, sb; reflexivity).
  unfold add, SFadd. rewrite (Z.min_comm eb ea), Z.add_comm. reflexivity.
Qed.


(** [x - x] is [0.0] for a finite [x]. *)
Lemma sub_self (x : float64) : finite x = true -> sub x x = zero.
Proof.
  destruct x as [[]|s| |s m e]; try reflexivity; try discriminate.
  intros _. unfold sub, SFsub. rewrite Z.sub_diag. reflexivity.
Qed.

Lemma int_value (x : float64) (q : Q) :
  value x = Some q -> Binary64.int x = Ok (Py.int q).
Proof.
  destruct x as [s|s| |s m e]; try discriminate; intros H; injection H as <-;
    reflexivity.
Qed.

End Binary64Facts.

(** ** Facts about the path length *)

Section PathLengthFacts.

Lemma last_rev_hd {A} (l : list A) (d : A) : last (rev l) d = hd d l.
Proof.
  destruct l as [|x l]; [reflexivity|]. simpl. apply last_last.
Qed.



(** The distances the code sums are those between consecutive points. *)
Lemma sum_distances (x1 y1 : Q) (xs ys : list Q) :
  sum_fp (map Np.sqrt
            (zip_with Qplus (square (diff (x1 :: xs))) (square (diff (y1 :: ys)))))
  = Num (path_length (points (x1 :: xs) (y1 :: ys))).
Proof.
  revert x1 y1 ys. induction xs as [|x2 xs IH]; intros x1 y1 ys.
  - reflexivity.
  - destruct ys as [|y2 ys].
    + rewrite diff_cons2. simpl. reflexivity.
    + rewrite !diff_cons2.
      change (points (x1 :: x2 :: xs) (y1 :: y2 :: ys))
        with ((Q2R x1, Q2R y1) :: points (x2 :: xs) (y2 :: ys)).
      change (path_length ((Q2R x1, Q2R y1) :: points (x2 :: xs) (y2 :: ys)))
        with (distance (Q2R x1, Q2R y1) (Q2R x2, Q2R y2)
              + path_length (points (x2 :: xs) (y2 :: ys)))%R.
      simpl map. simpl zip_with.
      change (sum_fp (?a :: ?l)) with (add_fp a (sum_fp l)).
      rewrite IH.
      change (map sq (diff (x2 :: xs))) with (square (diff (x2 :: xs))).
      rewrite sqrt_step. reflexivity.
Qed.

Lemma total_path_length_points (xs ys : list Q) :
  length xs = length ys ->
  compute_total_path_length xs ys = Ok (Num (path_length (points xs ys))).
Proof.
  intros H. unfold compute_total_path_length.
  rewrite broadcast_same_length
    by (unfold square; rewrite !length_map, !diff_length; lia).
  simpl bind. f_equal.
  destruct xs as [|x1 xs], ys as [|y1 ys]; try discriminate; [reflexivity|].
  apply sum_distances.
Qed.

End PathLengthFacts.

(** ** The scenario: zero-crossings, RMS and path length *)

Section Scenario.

Lemma scenario_path_length :
  compute_total_path_length scenario_x scenario_y = Ok (Num 7%R).
Proof.
  rewrite total_path_length_points by reflexivity.
  do 2 f_equal.
  unfold scenario_x, scenario_y, points. simpl.
  unfold distance. simpl. rewrite !RMicromega.Q2R_0, !RMicromega.Q2R_1.
  replace (Q2R (-1)) with (-1)%R by (unfold Q2R; simpl; lra).
  replace ((1 - 0) * (1 - 0) + (0 - 0) * (0 - 0))%R with 1%R by ring.
  replace ((0 - 1) * (0 - 1) + (0 - 0) * (0 - 0))%R with 1%R by ring.
  replace ((-1 - 0) * (-1 - 0) + (0 - 0) * (0 - 0))%R with 1%R by ring.
  replace ((0 - -1) * (0 - -1) + (0 - 0) * (0 - 0))%R with 1%R by ring.
  rewrite sqrt_1. ring.
Qed.

Lemma scenario_rms :
  fst (compute_rms scenario_x scenario_y) = Num (R_sqrt.sqrt (1 / 2)).
Proof.
  unfold compute_rms, scenario_x. simpl fst.
  unfold mean, square, sqrt_fp. simpl map.
  rewrite sqrt_Num by (vm_compute; discriminate).
  do 2 f_equal. unfold Q2R. simpl. lra.
Qed.

Lemma sqrt_half_bounds :
  (706 / 1000 < R_sqrt.sqrt (1 / 2) < 708 / 1000)%R.
Proof.
  assert (H : (0 <= 1 / 2)%R) by lra.
  pose proof (sqrt_sqrt _ H) as Hs.
  pose proof (sqrt_pos (1 / 2)) as Hp.
  set (s := R_sqrt.sqrt (1 / 2)) in *.
  split; nra.
Qed.

End Scenario.

(** C1 (as the code behaves).  On [cop_x = [0,1,0,-1,0,1,0,-1]] with
    [cop_y] all zero, [count_zero_crossings] returns 0 (every product of
    neighbours is 0, never negative), the first component of
    [compute_rms] is [sqrt(1/2)], within 0.001 of 0.707, and
    [compute_total_path_length] returns 7, the seven unit steps between
    the eight points. *)
Theorem scenario_values :
  count_zero_crossings scenario_x = Ok 0%nat /\
  (exists rms_ml : R,
      fst (compute_rms scenario_x scenario_y) = Num rms_ml /\
      rms_ml = R_sqrt.sqrt (1 / 2) /\
      (Rabs (rms_ml - 707 / 1000) < 1 / 1000)%R) /\
  compute_total_path_length scenario_x scenario_y = Ok (Num 7%R).
Proof.
  split; [reflexivity|]. split.
  - exists (R_sqrt.sqrt (1 / 2)). split; [apply scenario_rms|].
    split; [reflexivity|].
    pose proof sqrt_half_bounds. apply Rabs_def1; lra.
  - apply scenario_path_length.
Qed.

(** C1 as stated fails: the zero-crossing count is not 6, and the path
    length is a whole unit away from 8. *)
Lemma scenario_not_6_and_8 :
  count_zero_crossings scenario_x <> Ok 6%nat /\
  ~ (exists p : R,
        compute_total_path_length scenario_x scenario_y = Ok (Num p) /\
        (Rabs (p - 8) < 1)%R).
Proof.
  split.
  - vm_compute. discriminate.
  - intros (p & Hp & Hb). rewrite scenario_path_length in Hp.
    injection Hp as <-.
    unfold Rabs in Hb. destruct (Rcase_abs (7 - 8)) in Hb; lra.
Qed.

(** ** Path length in binary64: reversal and concatenation *)

Section PathLength64Facts.

Import Binary64 Np64 Spec64.











End PathLength64Facts.




(** ** Mean square displacement *)

Section MsdFacts.

Lemma int_small (q : Q) : (0 < q)%Q -> (q < 1)%Q -> int q = 0%Z.
Proof.
  destruct q as [n d]. unfold Qlt, int. simpl. intros H0 H1.
  apply Z.quot_small. lia.
Qed.

Lemma int_floor (q : Q) : (0 <= q)%Q -> int q = Qfloor q.
Proof.
  destruct q as [n d]. unfold Qle, int, Qfloor. simpl. intros H.
  apply Z.quot_div_nonneg; lia.
Qed.

Lemma broadcast_raise {A B} (f : A -> A -> B) (a b : list A) (e : exn) :
  broadcast f a b = Raise e -> e = BroadcastError (length a) (length b).
Proof.
  unfold broadcast. destruct (Nat.eqb (length a) (length b)); [discriminate|].
  destruct a as [|x [|x' a]], b as [|y [|y' b]]; try discriminate;
    intros H; injection H as <-; reflexivity.
Qed.

Lemma clip_index_nonneg (len k : nat) :
  (k <= len)%nat -> clip_index len (Z.of_nat k) = k.
Proof.
  intros H. unfold clip_index.
  destruct (Z.ltb_spec (Z.of_nat k) 0); lia.
Qed.

Lemma clip_index_neg (len k : nat) :
  (1 <= k <= len)%nat -> clip_index len (- Z.of_nat k) = (len - k)%nat.
Proof.
  intros H. unfold clip_index.
  destruct (Z.ltb_spec (- Z.of_nat k) 0); lia.
Qed.

Lemma zip_with_nth {A B} (f : A -> A -> B) (d : A) (a b : list A) :
  zip_with f a b
  = map (fun i => f (nth i a d) (nth i b d))
        (seq 0 (Nat.min (length a) (length b))).
Proof.
  revert b. induction a as [|x a IH]; intros [|y b]; try reflexivity.
  simpl. f_equal. rewrite <- seq_shift, map_map. apply IH.
Qed.

(** The differences the code forms for a lag of [k] samples, and for a
    negative lag. *)
Lemma lagged_zip {A B} (f : A -> A -> B) (d : A) (S : list A) (k : nat) :
  (1 <= k <= length S)%nat ->
  broadcast f (slice_from (Z.of_nat k) S) (slice_to (- Z.of_nat k) S)
  = Ok (map (fun i => f (nth (i + k) S d) (nth i S d)) (seq 0 (length S - k))).
Proof.
  intros H. unfold slice_from, slice_to.
  rewrite clip_index_nonneg, clip_index_neg by lia.
  assert (Hl : length (skipn k S) = length (firstn (length S - k) S)).
  { rewrite length_skipn, length_firstn. lia. }
  rewrite broadcast_same_length by exact Hl.
  f_equal. rewrite (zip_with_nth _ d), <- Hl, Nat.min_id, length_skipn.
  apply map_ext_in. intros i Hi. apply in_seq in Hi.
  rewrite nth_skipn, nth_firstn.
  destruct (Nat.ltb_spec i (length S - k)); [|lia].
  rewrite (Nat.add_comm k i). reflexivity.
Qed.

Lemma negative_lag_zip {A B} (f : A -> A -> B) (d : A) (S : list A) (k : nat) :
  (1 <= k <= length S)%nat ->
  broadcast f (slice_from (- Z.of_nat k) S) (slice_to (Z.of_nat k) S)
  = Ok (map (fun i => f (nth (i + (length S - k)) S d) (nth i S d)) (seq 0 k)).
Proof.
  intros H. unfold slice_from, slice_to.
  rewrite clip_index_nonneg, clip_index_neg by lia.
  assert (Hl : length (skipn (length S - k) S) = length (firstn k S)).
  { rewrite length_skipn, length_firstn. lia. }
  rewrite broadcast_same_length by exact Hl.
  f_equal. rewrite (zip_with_nth _ d), Hl, Nat.min_id, length_firstn.
  replace (Nat.min k (length S)) with k by lia.
  apply map_ext_in. intros i Hi. apply in_seq in Hi.
  rewrite nth_skipn, nth_firstn.
  destruct (Nat.ltb_spec i k); [|lia].
  rewrite (Nat.add_comm (length S - k) i). reflexivity.
Qed.

Lemma compute_msd_lag (S : list Q) (fs delta_t : Q) (k : nat) :
  int (delta_t * fs) = Z.of_nat k -> (1 <= k < length S)%nat ->
  compute_msd S fs delta_t = Ok (Num (lagged_msd S k)).
Proof.
  intros Hk Hr. unfold compute_msd. rewrite Hk.
  destruct (Z.geb_spec (Z.of_nat k) (Z.of_nat (length S))); [lia|].
  rewrite (lagged_zip Qminus 0%Q) by lia. simpl bind.
  unfold lagged_msd, square. rewrite map_map.
  remember (seq 0 (length S - k)) as idx eqn:Hidx.
  assert (Hlen : length idx = (length S - k)%nat)
    by (subst idx; apply length_seq).
  destruct idx as [|i idx]; [simpl in Hlen; lia|].
  unfold mean. cbn [map]. rewrite <- Hlen.
  cbn [length]. rewrite length_map. reflexivity.
Qed.

End MsdFacts.

(** ** Mean square displacement in binary64 *)

Section Msd64Facts.

Import Binary64 Np64 Spec64.

Lemma compute_msd64_lag (S : list float64) (fs delta_t : float64) (k : nat) :
  Binary64.int (mul delta_t fs) = Ok (Z.of_nat k) -> (1 <= k < length S)%nat ->
  Stabilogram64.compute_msd S fs delta_t = Ok (lagged_msd S k).
Proof.
  intros Hk Hr. unfold Stabilogram64.compute_msd. rewrite Hk. cbn [bind].
  destruct (Z.geb_spec (Z.of_nat k) (Z.of_nat (length S))); [lia|].
  rewrite (lagged_zip sub zero) by lia. cbn [bind].
  unfold lagged_msd, square. rewrite map_map. reflexivity.
Qed.

Lemma compute_msd64_raise (S : list float64) (fs delta_t : float64) (delta_n : Z) :
  Binary64.int (mul delta_t fs) = Ok delta_n ->
  (Stabilogram64.compute_msd S fs delta_t = Raise delta_t_too_large
   <-> (delta_n >= Z.of_nat (length S))%Z).
Proof.
  intros Hn. unfold Stabilogram64.compute_msd. rewrite Hn. cbn [bind].
  destruct (Z.geb_spec delta_n (Z.of_nat (length S))) as [Hge|Hlt].
  - split; [lia | reflexivity].
  - split; [|lia]. intros H.
    destruct (broadcast sub _ _) as [d|e] eqn:Hb; [discriminate|].
    apply broadcast_raise in Hb. simpl in H. subst e. discriminate.
Qed.

Lemma compute_msd64_zero_lag (S : list float64) (fs delta_t : float64) :
  Binary64.int (mul delta_t fs) = Ok 0%Z ->
  match S with
  | [] => Stabilogram64.compute_msd S fs delta_t = Raise delta_t_too_large
  | [_] => Stabilogram64.compute_msd S fs delta_t = Ok nan
  | _ :: _ :: _ =>
      Stabilogram64.compute_msd S fs delta_t
      = Raise (BroadcastError (length S) 0)
  end.
Proof.
  intros H. unfold Stabilogram64.compute_msd. rewrite H.
  destruct S as [|x [|y S]]; reflexivity.
Qed.

Lemma compute_msd64_not_finite (S : list float64) (fs delta_t : float64) (e : exn) :
  Binary64.int (mul delta_t fs) = Raise e ->
  Stabilogram64.compute_msd S fs delta_t = Raise e.
Proof.
  intros H. unfold Stabilogram64.compute_msd. rewrite H. reflexivity.
Qed.

End Msd64Facts.

(** C2 (as the code behaves).  [compute_msd] takes
    [delta_n = int(delta_t * fs)]: the product as [float64] rounds it,
    truncated toward zero (its floor when it is not negative), not
    rounded to the nearest integer.  When that product is infinite or
    NaN, [int] raises.  Otherwise the call raises its own [ValueError]
    (delta_t too large) exactly when [delta_n >= N], and when
    [1 <= delta_n < N] it returns [np.mean] of the squared differences
    [S[i + delta_n] - S[i]] over [0 <= i < N - delta_n]. *)
Theorem compute_msd_truncated_lag
        (S : list Binary64.float64) (fs delta_t : Binary64.float64) :
  let product := Binary64.mul delta_t fs in
  (product = Binary64.nan ->
   Stabilogram64.compute_msd S fs delta_t
   = Raise (ValueError "cannot convert float NaN to integer")) /\
  (forall s : bool,
      product = S754_infinity s ->
      Stabilogram64.compute_msd S fs delta_t
      = Raise (OverflowError "cannot convert float infinity to integer")) /\
  (forall q : Q,
      Binary64.value product = Some q ->
      let delta_n := Py.int q in
      ((0 <= q)%Q -> delta_n = Qfloor q) /\
      (Stabilogram64.compute_msd S fs delta_t = Raise delta_t_too_large
       <-> (delta_n >= Z.of_nat (length S))%Z) /\
      ((1 <= delta_n < Z.of_nat (length S))%Z ->
       Stabilogram64.compute_msd S fs delta_t
       = Ok (Spec64.lagged_msd S (Z.to_nat delta_n)))).
Proof.
  intros product. split; [|split].
  - intros H. apply compute_msd64_not_finite. fold product. rewrite H.
    reflexivity.
  - intros s H. apply compute_msd64_not_finite. fold product. rewrite H.
    reflexivity.
  - intros q Hq delta_n. apply int_value in Hq. fold delta_n in Hq.
    split; [apply int_floor|].
    split; [apply compute_msd64_raise, Hq|].
    intros Hr. apply compute_msd64_lag; [|lia].
    fold product. rewrite Hq. f_equal. lia.
Qed.

(** 0.03 * 100.0 is 3.0 in [float64]: the lag is 3. *)
Lemma compute_msd_truncated_lag_witness :
  let S := [Binary64.ratio 1 10; Binary64.ratio 3 10; Binary64.ratio 2 10;
            Binary64.ratio 5 10] in
  Py.int (6755399441055744 # 2251799813685248) = 3%Z /\
  Stabilogram64.compute_msd S (Binary64.of_int 100) (Binary64.ratio 3 100)
  = Ok (Spec64.lagged_msd S 3).
Proof.
  intros S.
  destruct (compute_msd_truncated_lag S (Binary64.of_int 100) (Binary64.ratio 3 100))
    as (_ & _ & H).
  destruct (H (6755399441055744 # 2251799813685248) eq_refl) as (_ & _ & Hret).
  split; [reflexivity|]. apply Hret. vm_compute. split; [discriminate | reflexivity].
Defined.

(** C2 as stated fails: with [delta_t * fs = 1.75] the rounded lag is 2,
    which is not below [N = 2], yet the code uses the lag 1 and returns. *)
Lemma compute_msd_not_rounded :
  ~ (forall (S : list Binary64.float64) (fs delta_t : Binary64.float64)
            (delta_n : Z),
        (1 <= length S)%nat ->
        Binary64.ltb Binary64.zero fs = true ->
        Binary64.ltb Binary64.zero delta_t = true ->
        Spec64.rounded_delta_n fs delta_t = Some delta_n ->
        (Stabilogram64.compute_msd S fs delta_t = Raise delta_t_too_large
         <-> (delta_n >= Z.of_nat (length S))%Z) /\
        ((delta_n < Z.of_nat (length S))%Z ->
         Stabilogram64.compute_msd S fs delta_t
         = Ok (Spec64.lagged_msd S (Z.to_nat delta_n)))).
Proof.
  intros H.
  destruct (H [Binary64.of_int 0; Binary64.of_int 1] (Binary64.of_int 1)
              (Binary64.ratio 7 4) 2%Z) as [[_ Hraise] _];
    [simpl; lia | reflexivity | reflexivity | reflexivity |].
  assert (Hr : Stabilogram64.compute_msd
                 [Binary64.of_int 0; Binary64.of_int 1] (Binary64.of_int 1)
                 (Binary64.ratio 7 4) = Raise delta_t_too_large).
  { apply Hraise. vm_compute. discriminate. }
  vm_compute in Hr. discriminate.
Qed.

(** C10 (as the code behaves).  When the [float64] product
    [delta_t * fs] lies strictly between 0 and 1 the lag is
    [delta_n = 0] and the slice [S[:-0]] is empty.  For [N >= 2] the
    check [delta_n >= N] passes and the subtraction raises NumPy's
    broadcast error, a [ValueError] by class but not the error
    [compute_msd] documents; for [N = 1] the one sample broadcasts
    against the empty slice, and the call returns NaN without raising. *)
Theorem compute_msd_zero_lag_fails
        (S : list Binary64.float64) (fs delta_t : Binary64.float64) (q : Q) :
  Binary64.value (Binary64.mul delta_t fs) = Some q ->
  (0 < q)%Q -> (q < 1)%Q ->
  Binary64.int (Binary64.mul delta_t fs) = Ok 0%Z /\
  ((2 <= length S)%nat ->
   (0 >=? Z.of_nat (length S))%Z = false /\
   Stabilogram64.compute_msd S fs delta_t = Raise (BroadcastError (length S) 0) /\
   BroadcastError (length S) 0 <> delta_t_too_large /\
   is_ValueError (BroadcastError (length S) 0) = true) /\
  (length S = 1%nat ->
   Stabilogram64.compute_msd S fs delta_t = Ok Binary64.nan).
Proof.
  intros Hq H0 H1. apply int_value in Hq. rewrite (int_small _ H0 H1) in Hq.
  pose proof (compute_msd64_zero_lag S fs delta_t Hq) as Hc.
  split; [exact Hq|]. split.
  - intros HN. destruct S as [|x [|y S]]; simpl in HN; try lia.
    split; [reflexivity|]. split; [exact Hc|].
    split; [discriminate | reflexivity].
  - intros HN. destruct S as [|x [|y S]]; simpl in HN; try lia. exact Hc.
Qed.

Lemma compute_msd_zero_lag_fails_witness :
  let S := [Binary64.of_int 1; Binary64.of_int 3; Binary64.of_int 6] in
  Binary64.int (Binary64.mul (Binary64.ratio 1 4) (Binary64.of_int 2)) = Ok 0%Z /\
  Stabilogram64.compute_msd S (Binary64.of_int 2) (Binary64.ratio 1 4)
  = Raise (BroadcastError 3 0) /\
  Stabilogram64.compute_msd [Binary64.of_int 5] (Binary64.of_int 2) (Binary64.ratio 1 4)
  = Ok Binary64.nan.
Proof.
  intros S.
  destruct (compute_msd_zero_lag_fails S (Binary64.of_int 2) (Binary64.ratio 1 4)
              (4503599627370496 # 9007199254740992))
    as (Hz & Hraise & _); [reflexivity | reflexivity | reflexivity |].
  destruct (compute_msd_zero_lag_fails [Binary64.of_int 5] (Binary64.of_int 2)
              (Binary64.ratio 1 4) (4503599627370496 # 9007199254740992))
    as (_ & _ & Hnan); [reflexivity | reflexivity | reflexivity |].
  split; [exact Hz|]. split.
  - apply Hraise. simpl. lia.
  - apply Hnan. reflexivity.
Defined.

(** C10 as stated fails for a series of one sample: the call returns
    (NaN) instead of raising. *)
Lemma compute_msd_single_sample_returns :
  ~ (forall (S : list Binary64.float64) (fs delta_t : Binary64.float64) (q : Q),
        (1 <= length S)%nat ->
        Binary64.value (Binary64.mul delta_t fs) = Some q ->
        (0 < q)%Q -> (q < 1)%Q ->
        Binary64.int (Binary64.mul delta_t fs) = Ok 0%Z /\
        exists e : exn,
          Stabilogram64.compute_msd S fs delta_t = Raise e /\
          e <> delta_t_too_large).
Proof.
  intros H.
  destruct (H [Binary64.of_int 5] (Binary64.of_int 1) (Binary64.ratio 1 2)
              (4503599627370496 # 9007199254740992))
    as [_ (e & He & _)];
    [simpl; lia | reflexivity | reflexivity | reflexivity |].
  vm_compute in He. discriminate.
Qed.

(** ** Sway density *)

Section SwayDensityFacts.

Lemma set_item_app {A} (pre rest : list A) (x v : A) :
  set_item (pre ++ x :: rest) (length pre) v = pre ++ v :: rest.
Proof.
  induction pre as [|p pre IH]; simpl; [reflexivity|]. now rewrite IH.
Qed.

(** Invariant of the loop: the slots before [t] are filled, the others
    still hold their initial value. *)
Lemma fill_loop {A} (f : nat -> A) (n : nat) :
  forall (pre rest : list A),
    length rest = n ->
    fold_left (fun sd t => set_item sd t (f t)) (seq (length pre) n) (pre ++ rest)
    = pre ++ map f (seq (length pre) n).
Proof.
  induction n as [|n IH]; intros pre rest Hr.
  - destruct rest; [reflexivity | discriminate].
  - destruct rest as [|x rest]; [discriminate|].
    cbn [seq fold_left map]. rewrite set_item_app.
    change (pre ++ f (length pre) :: rest)
      with (pre ++ [f (length pre)] ++ rest).
    rewrite app_assoc.
    replace (S (length pre)) with (length (pre ++ [f (length pre)]))
      by (rewrite length_app; simpl; lia).
    rewrite IH by (simpl in Hr; lia).
    rewrite <- app_assoc. reflexivity.
Qed.

Lemma sway_density_map (S : list Q) (fs radius : Q) :
  compute_sway_density S fs radius
  = map (sway_density_at S radius) (seq 0 (length S)).
Proof.
  unfold compute_sway_density.
  apply (fill_loop (sway_density_at S radius) (length S) []).
  apply repeat_length.
Qed.

Lemma count_true_filter {A} (g : A -> bool) (d : A) (l : list A) (a : nat) :
  count_true (map g l)
  = length (filter (fun j => g (nth (j - a) l d)) (seq a (length l))).
Proof.
  revert a. induction l as [|x l IH]; intros a; [reflexivity|].
  cbn [map count_true fold_right length seq filter].
  rewrite Nat.sub_diag. change (nth 0 (x :: l) d) with x.
  assert (E : filter (fun j => g (nth (j - a) (x :: l) d)) (seq (S a) (length l))
              = filter (fun j => g (nth (j - S a) l d)) (seq (S a) (length l))).
  { apply filter_ext_in. intros j Hj. apply in_seq in Hj.
    replace (j - a)%nat with (S (j - S a)) by lia. reflexivity. }
  rewrite E.
  fold (count_true (map g l)). rewrite (IH (S a)).
  destruct (g x); reflexivity.
Qed.


Lemma count_true_le_length (l : list bool) : (count_true l <= length l)%nat.
Proof.
  induction l as [|b l IH]; [apply le_n|].
  destruct b; simpl; fold (count_true l); lia.
Qed.

Lemma count_true_monotone {A} (g h : A -> bool) (l : list A) :
  (forall x, g x = true -> h x = true) ->
  (count_true (map g l) <= count_true (map h l))%nat.
Proof.
  intros Hgh. induction l as [|x l IH]; [apply le_n|].
  cbn [map count_true fold_right].
  fold (count_true (map g l)). fold (count_true (map h l)).
  specialize (Hgh x).
  destruct (g x), (h x); try discriminate (Hgh eq_refl); lia.
Qed.

Lemma leb_le (x y : Q) : leb x y = true <-> (x <= y)%Q.
Proof.
  unfold leb. destruct (Qcompare_spec x y) as [H|H|H]; split; intros H';
    try reflexivity; try discriminate.
  - rewrite H. apply Qle_refl.
  - apply Qlt_le_weak, H.
  - exfalso. apply (Qlt_not_le _ _ H H').
Qed.

Lemma of_nat_le (a b : nat) : (a <= b)%nat -> (of_nat a <= of_nat b)%Q.
Proof.
  intros H. unfold of_nat. rewrite <- Zle_Qle. lia.
Qed.

Lemma of_nat_nonneg (a : nat) : (0 <= of_nat a)%Q.
Proof. apply (of_nat_le 0 a). lia. Qed.

Lemma ratio_le (a b n : nat) :
  (a <= b)%nat -> (of_nat a / of_nat n <= of_nat b / of_nat n)%Q.
Proof.
  intros H. unfold Qdiv. apply Qmult_le_compat_r; [apply of_nat_le, H|].
  apply Qinv_le_0_compat, of_nat_nonneg.
Qed.

Lemma ratio_bounds (a n : nat) :
  (a <= n)%nat -> (0 <= of_nat a / of_nat n <= 1)%Q.
Proof.
  intros H. split.
  - unfold Qdiv. apply Qmult_le_0_compat; [apply of_nat_nonneg|].
    apply Qinv_le_0_compat, of_nat_nonneg.
  - destruct n as [|n].
    + replace a with O by lia. vm_compute. discriminate.
    + apply Qle_shift_div_r.
      * unfold of_nat. rewrite <- (Zlt_Qlt 0). lia.
      * rewrite Qmult_1_l. apply of_nat_le, H.
Qed.

Lemma sway_density_at_monotone (S : list Q) (r1 r2 : Q) (t : nat) :
  (r1 <= r2)%Q -> (sway_density_at S r1 t <= sway_density_at S r2 t)%Q.
Proof.
  intros H. unfold sway_density_at. apply ratio_le.
  apply count_true_monotone. intros d Hd.
  apply leb_le. apply leb_le in Hd. eapply Qle_trans; eassumption.
Qed.

Lemma sway_density_at_bounds (S : list Q) (r : Q) (t : nat) :
  (0 <= sway_density_at S r t <= 1)%Q.
Proof.
  unfold sway_density_at. apply ratio_bounds.
  etransitivity; [apply count_true_le_length|].
  rewrite !length_map. apply le_n.
Qed.


Lemma filter_excluding (f : nat -> bool) (t : nat) (l : list nat) :
  NoDup l -> In t l -> f t = true ->
  length (filter f l)
  = Datatypes.S (length (filter (fun j => negb (Nat.eqb j t) && f j) l)).
Proof.
  intros Hnd Hin Hft. induction l as [|a l IH]; [destruct Hin|].
  inversion Hnd as [|a' l' Hnotin Hnd']; subst.
  cbn [filter]. destruct (Nat.eqb_spec a t) as [->|Hne].
  - rewrite Hft. cbn [negb andb length]. do 2 f_equal.
    apply filter_ext_in. intros j Hj.
    destruct (Nat.eqb_spec j t) as [->|_]; [contradiction | reflexivity].
  - destruct Hin as [Heq|Hin]; [contradiction|].
    cbn [negb andb]. destruct (f a); cbn [length]; rewrite (IH Hnd' Hin);
      reflexivity.
Qed.


End SwayDensityFacts.

Lemma Forall2_map_same {A B} (P : B -> B -> Prop) (f g : A -> B) (l : list A) :
  (forall x, P (f x) (g x)) -> Forall2 P (map f l) (map g l).
Proof.
  intros H. induction l as [|x l IH]; simpl; constructor; auto.
Qed.

(** ** Sway density in binary64 *)

Section SwayDensity64Facts.

Import Binary64 Np64 Spec64.

Lemma sway_density64_map (S : list float64) (fs radius : float64) :
  Stabilogram64.compute_sway_density S fs radius
  = map (Stabilogram64.sway_density_at S radius) (seq 0 (length S)).
Proof.
  unfold Stabilogram64.compute_sway_density.
  apply (fill_loop (Stabilogram64.sway_density_at S radius) (length S) []).
  apply repeat_length.
Qed.

Lemma sway_density64_nth (S : list float64) (fs radius : float64) (t : nat) :
  (t < length S)%nat ->
  nth_error (Stabilogram64.compute_sway_density S fs radius) t
  = Some (Stabilogram64.sway_density_at S radius t).
Proof.
  intros H. rewrite sway_density64_map.
  rewrite nth_error_map, nth_error_nth' with (d := O)
    by (rewrite length_seq; exact H).
  rewrite seq_nth by exact H. reflexivity.
Qed.

Lemma sway_density64_at_fraction (S : list float64) (radius : float64) (t : nat) :
  Stabilogram64.sway_density_at S radius t = fraction_of_all S radius t.
Proof.
  unfold Stabilogram64.sway_density_at, fraction_of_all, all_within.
  rewrite !map_map, (count_true_filter _ zero S 0).
  do 3 f_equal. apply filter_ext. intros j.
  rewrite Nat.sub_0_r. reflexivity.
Qed.

(** A finite sample lies within any radius [>= 0] of itself. *)
Lemma within64_self (S : list float64) (r : float64) (t : nat) :
  leb zero r = true -> finite (nth t S zero) = true -> within S r t t = true.
Proof.
  intros Hr Hf. unfold within. rewrite (sub_self _ Hf). exact Hr.
Qed.

Lemma all_within64_others (S : list float64) (r : float64) (t : nat) :
  leb zero r = true -> finite (nth t S zero) = true -> (t < length S)%nat ->
  all_within S r t = Datatypes.S (others_within S r t).
Proof.
  intros Hr Hf Ht. unfold all_within, others_within.
  apply filter_excluding.
  - apply seq_NoDup.
  - apply in_seq. lia.
  - apply within64_self; assumption.
Qed.

End SwayDensity64Facts.

(** C3 (as the code behaves).  Element [t] of the series returned by
    [compute_sway_density] is the number of samples, sample [t] itself
    included, whose difference from [S[t]], as [float64] rounds it, is
    at most [radius] in absolute value, divided by the number [N] of all
    samples.  For a radius [>= 0] and a finite [S[t]] that number is one
    more than the number of other samples within [radius]. *)
Theorem sway_density_fraction_of_all
        (S : list Binary64.float64) (fs radius : Binary64.float64) (t : nat) :
  (t < length S)%nat ->
  nth_error (Stabilogram64.compute_sway_density S fs radius) t
  = Some (Spec64.fraction_of_all S radius t) /\
  (Binary64.leb Binary64.zero radius = true ->
   Binary64.finite (nth t S Binary64.zero) = true ->
   Spec64.all_within S radius t = Datatypes.S (Spec64.others_within S radius t)).
Proof.
  intros H. split.
  - rewrite sway_density64_nth by exact H.
    rewrite sway_density64_at_fraction. reflexivity.
  - intros Hr Hf. apply all_within64_others; assumption.
Qed.

(** On [[0.01, 0.31, 5.0]] with the radius 0.3 the difference
    0.31 - 0.01 rounds to 0.3, so two of the three samples are within
    reach of the first. *)
Lemma sway_density_fraction_of_all_witness :
  let S := [Binary64.ratio 1 100; Binary64.ratio 31 100; Binary64.of_int 5] in
  Spec64.all_within S (Binary64.ratio 3 10) 0 = 2%nat /\
  nth_error (Stabilogram64.compute_sway_density S (Binary64.of_int 8)
               (Binary64.ratio 3 10)) 0
  = Some (Spec64.fraction_of_all S (Binary64.ratio 3 10) 0).
Proof.
  intros S. split; [reflexivity|].
  apply (sway_density_fraction_of_all S (Binary64.of_int 8) (Binary64.ratio 3 10) 0).
  simpl. lia.
Defined.

(** C3 as stated fails: in [[0, 10]] with radius 1 no other sample is
    within reach of sample 0, yet its sway density is 0.5, not 0. *)
Lemma sway_density_counts_itself :
  ~ (forall (S : list Binary64.float64) (fs radius : Binary64.float64)
            (t : nat) (v : Binary64.float64),
        (1 <= length S)%nat ->
        Binary64.ltb Binary64.zero fs = true ->
        Binary64.leb Binary64.zero radius = true ->
        nth_error (Stabilogram64.compute_sway_density S fs radius) t = Some v ->
        v = Spec64.fraction_of_others S radius t).
Proof.
  intros H.
  assert (E : Binary64.ratio 1 2
              = Spec64.fraction_of_others
                  [Binary64.of_int 0; Binary64.of_int 10] (Binary64.of_int 1) 0).
  { apply (H [Binary64.of_int 0; Binary64.of_int 10] (Binary64.of_int 1)
             (Binary64.of_int 1) O (Binary64.ratio 1 2)).
    - simpl. lia.
    - reflexivity.
    - reflexivity.
    - vm_compute. reflexivity. }
  vm_compute in E. discriminate.
Qed.

(** C7.  For a fixed series and radii [r1 <= r2], every element of the
    sway density for [r1] is at most the element at the same index for
    [r2], and every element, for either radius, lies in [0, 1]. *)
Theorem sway_density_monotone_in_radius (S : list Q) (fs r1 r2 : Q) :
  (r1 <= r2)%Q ->
  Forall2 Qle (compute_sway_density S fs r1) (compute_sway_density S fs r2) /\
  Forall (fun v => 0 <= v <= 1)%Q (compute_sway_density S fs r1) /\
  Forall (fun v => 0 <= v <= 1)%Q (compute_sway_density S fs r2).
Proof.
  intros H. rewrite !sway_density_map. split; [|split].
  - apply Forall2_map_same. intros t. apply sway_density_at_monotone, H.
  - apply Forall_map, Forall_forall. intros t _. apply sway_density_at_bounds.
  - apply Forall_map, Forall_forall. intros t _. apply sway_density_at_bounds.
Qed.

Lemma sway_density_monotone_in_radius_witness :
  Forall2 Qle (compute_sway_density [0; 10; 1]%Q 8 (1 # 2))
              (compute_sway_density [0; 10; 1]%Q 8 1) /\
  Forall (fun v => 0 <= v <= 1)%Q (compute_sway_density [0; 10; 1]%Q 8 (1 # 2)) /\
  Forall (fun v => 0 <= v <= 1)%Q (compute_sway_density [0; 10; 1]%Q 8 1).
Proof.
  apply (sway_density_monotone_in_radius [0; 10; 1]%Q 8 (1 # 2) 1).
  discriminate.
Defined.

(** ** Velocity: the window edge policy *)

Section WindowFacts.

Local Ltac zdm := Z.div_mod_to_equations; lia.


Lemma odd_mod (w : Z) : Z.odd w = (w mod 2 =? 1)%Z.
Proof.
  rewrite Zmod_odd. destruct (Z.odd w); reflexivity.
Qed.



Lemma effective_window_odd (n : nat) (w : Z) :
  Z.odd (effective_window_length n w) = true.
Proof.
  unfold effective_window_length. rewrite odd_mod. apply Z.eqb_eq.
  set (N := Z.of_nat n).
  destruct (Z.eqb_spec (Z.min w (N / 2 * 2 - 1) mod 2) 0); zdm.
Qed.

Lemma effective_window_below (n : nat) (w : Z) :
  (effective_window_length n w <= Z.of_nat n - 1)%Z.
Proof.
  unfold effective_window_length.
  set (N := Z.of_nat n).
  destruct (Z.eqb_spec (Z.min w (N / 2 * 2 - 1) mod 2) 0); zdm.
Qed.

End WindowFacts.

Section SpeedFacts.

Variable savgol_sample : list Q -> Z -> Z -> Z -> Q -> nat -> Q.

Lemma savgol_filter_ok (x : list Q) (w p d : Z) (delta : Q) :
  (0 <= p < w)%Z -> (w <= Z.of_nat (length x))%Z ->
  savgol_filter savgol_sample x w p d delta
  = Ok (map (savgol_sample x w p d delta) (seq 0 (length x))).
Proof.
  intros Hp Hw. unfold savgol_filter.
  destruct (Z.geb_spec p w); [lia|].
  destruct (Z.ltb_spec w 1); [lia|].
  destruct (Z.gtb_spec w (Z.of_nat (length x))); [lia|].
  destruct (Z.ltb_spec p 0); [lia|]. reflexivity.
Qed.

Lemma savgol_filter_length (x y : list Q) (w p d : Z) (delta : Q) :
  savgol_filter savgol_sample x w p d delta = Ok y -> length y = length x.
Proof.
  unfold savgol_filter.
  destruct (p >=? w)%Z; [discriminate|].
  destruct (w <? 1)%Z; [discriminate|].
  destruct (w >? Z.of_nat (length x))%Z; [discriminate|].
  destruct (p <? 0)%Z; [discriminate|].
  intros H. injection H as <-. rewrite length_map, length_seq. reflexivity.
Qed.

Lemma positive_not_zero (fs : Q) : (0 < fs)%Q -> Qeq_bool fs 0 = false.
Proof.
  intros H. destruct (Qeq_bool fs 0) eqn:E; [|reflexivity].
  apply Qeq_bool_eq in E. rewrite E in H. discriminate H.
Qed.

Lemma compute_speed_ok (cop_x cop_y : list Q) (fs : Q) (w p : Z) :
  (0 < fs)%Q -> length cop_x = length cop_y ->
  (0 <= p < effective_window_length (length cop_x) w)%Z ->
  compute_speed savgol_sample cop_x cop_y fs w p
  = Ok (map (savgol_sample cop_x (effective_window_length (length cop_x) w)
                            p 1 (1 / fs)) (seq 0 (length cop_x)),
        map (savgol_sample cop_y (effective_window_length (length cop_x) w)
                            p 1 (1 / fs)) (seq 0 (length cop_y))).
Proof.
  intros Hfs Hlen Hp. unfold compute_speed.
  rewrite (positive_not_zero _ Hfs).
  pose proof (effective_window_below (length cop_x) w) as Hb.
  rewrite !savgol_filter_ok by (try exact Hp; rewrite <- ?Hlen; lia).
  reflexivity.
Qed.

Lemma compute_speed_lengths (cop_x cop_y : list Q) (fs : Q) (w p : Z)
      (speed_ml speed_ap : list Q) :
  compute_speed savgol_sample cop_x cop_y fs w p = Ok (speed_ml, speed_ap) ->
  length speed_ml = length cop_x /\ length speed_ap = length cop_y.
Proof.
  unfold compute_speed. destruct (Qeq_bool fs 0); [discriminate|].
  destruct (savgol_filter _ cop_x _ _ _ _) as [sx|e] eqn:Hx; [|discriminate].
  destruct (savgol_filter _ cop_y _ _ _ _) as [sy|e] eqn:Hy; [|discriminate].
  simpl. intros H. injection H as <- <-.
  split; eapply savgol_filter_length; eassumption.
Qed.

End SpeedFacts.



(** C9.  The per-sample outputs keep the length of their input: on a
    valid input ([fs > 0], series of equal length, polynomial order
    non-negative and below the effective window) [compute_speed] returns
    two velocity series as long as [cop_x] and [cop_y]; whenever it
    returns at all the two series have those lengths; and the series
    [compute_sway_density] returns is as long as its input. *)
Theorem per_sample_outputs_keep_length :
  (forall (savgol_sample : list Q -> Z -> Z -> Z -> Q -> nat -> Q)
          (cop_x cop_y : list Q) (fs : Q) (w p : Z),
      (0 < fs)%Q -> length cop_x = length cop_y ->
      (0 <= p < effective_window_length (length cop_x) w)%Z ->
      exists speed_ml speed_ap : list Q,
        compute_speed savgol_sample cop_x cop_y fs w p = Ok (speed_ml, speed_ap) /\
        length speed_ml = length cop_x /\ length speed_ap = length cop_y) /\
  (forall (savgol_sample : list Q -> Z -> Z -> Z -> Q -> nat -> Q)
          (cop_x cop_y : list Q) (fs : Q) (w p : Z) (speed_ml speed_ap : list Q),
      compute_speed savgol_sample cop_x cop_y fs w p = Ok (speed_ml, speed_ap) ->
      length speed_ml = length cop_x /\ length speed_ap = length cop_y) /\
  (forall (S : list Q) (fs radius : Q),
      length (compute_sway_density S fs radius) = length S).
Proof.
  split; [|split].
  - intros sample cop_x cop_y fs w p Hfs Hlen Hp.
    pose proof (compute_speed_ok sample cop_x cop_y fs w p Hfs Hlen Hp) as E.
    eexists _, _. split; [exact E|].
    exact (compute_speed_lengths sample _ _ _ _ _ _ _ E).
  - intros sample cop_x cop_y fs w p sx sy.
    apply compute_speed_lengths.
  - intros S fs radius.
    rewrite sway_density_map, length_map, length_seq. reflexivity.
Qed.

Lemma per_sample_outputs_keep_length_witness :
  exists speed_ml speed_ap : list Q,
    compute_speed (fun _ _ _ _ _ i => Np.of_nat i) scenario_x scenario_y 8 5 3
    = Ok (speed_ml, speed_ap) /\
    length speed_ml = length scenario_x /\ length speed_ap = length scenario_y.
Proof.
  apply (proj1 per_sample_outputs_keep_length
               (fun _ _ _ _ _ i => Np.of_nat i) scenario_x scenario_y 8%Q 5%Z 3%Z);
    [reflexivity | reflexivity | vm_compute; split; [discriminate | reflexivity]].
Defined.

(** ** Event counters *)

Section CounterFacts.

Lemma zero_crossing_slices (signal : list Q) :
  length (slice_to (-1) signal) = length (slice_from 1 signal).
Proof.
  unfold slice_to, slice_from, clip_index.
  rewrite length_firstn, length_skipn.
  change (-1 <? 0)%Z with true. change (1 <? 0)%Z with false.
  cbv iota. lia.
Qed.

Lemma count_zero_crossings_total (signal : list Q) :
  exists n : nat, count_zero_crossings signal = Ok n.
Proof.
  unfold count_zero_crossings.
  rewrite broadcast_same_length by apply zero_crossing_slices.
  simpl. eexists. reflexivity.
Qed.

Lemma count_peaks_total (signal : list Q) :
  exists n : nat, count_peaks signal = Ok n.
Proof.
  unfold count_peaks, find_peaks. destruct signal; simpl; eexists; reflexivity.
Qed.

Lemma count_zero_crossings_short (signal : list Q) :
  (length signal < 2)%nat -> count_zero_crossings signal = Ok 0%nat.
Proof.
  destruct signal as [|x [|y l]]; simpl; intros H; try lia; reflexivity.
Qed.

Lemma count_peaks_short (signal : list Q) :
  (length signal < 3)%nat -> count_peaks signal = Ok 0%nat.
Proof.
  destruct signal as [|x [|y [|z l]]]; simpl; intros H; try lia;
    try reflexivity.
  unfold count_peaks, find_peaks. simpl.
  destruct (x ?= y)%Q; reflexivity.
Qed.

End CounterFacts.

(** C6 (as the code behaves).  Neither counter ever fails:
    [count_zero_crossings] and [count_peaks] return a count for every
    series, and that count is 0 for a series of fewer than 2 samples
    (zero-crossings) or fewer than 3 samples (peaks). *)
Theorem counters_never_fail (signal : list Q) :
  (exists n : nat, count_zero_crossings signal = Ok n) /\
  (exists n : nat, count_peaks signal = Ok n) /\
  ((length signal < 2)%nat -> count_zero_crossings signal = Ok 0%nat) /\
  ((length signal < 3)%nat -> count_peaks signal = Ok 0%nat).
Proof.
  split; [apply count_zero_crossings_total|].
  split; [apply count_peaks_total|].
  split; [apply count_zero_crossings_short | apply count_peaks_short].
Qed.

Lemma counters_never_fail_witness :
  count_zero_crossings [3]%Q = Ok 0%nat /\ count_peaks [1; 2]%Q = Ok 0%nat.
Proof.
  split.
  - apply (proj1 (proj2 (proj2 (counters_never_fail [3]%Q)))). simpl. lia.
  - apply (proj2 (proj2 (proj2 (counters_never_fail [1; 2]%Q)))). simpl. lia.
Defined.

(** C6 as stated fails: on the empty series both counters return 0
    instead of failing. *)
Lemma counters_accept_short_series :
  ~ (forall signal : list Q,
        (length signal < 2)%nat -> exists e : exn, count_zero_crossings signal = Raise e) /\
  ~ (forall signal : list Q,
        (length signal < 3)%nat -> exists e : exn, count_peaks signal = Raise e).
Proof.
  split; intros H; destruct (H []) as [e He]; try (simpl; lia);
    vm_compute in He; discriminate.
Qed.

(** ** Column names of the metrics file *)

Section ColumnNameFacts.

Lemma replace_char (a : N) (new s : str) :
  replace [a] new s = rewrite_char a new s.
Proof.
  unfold replace, rewrite_char.
  induction s as [|c s IH]; [reflexivity|].
  cbn [replace_scan starts_with flat_map length Nat.sub].
  rewrite andb_true_r, IH, (N.eqb_sym a c).
  destruct (c =? a)%N; reflexivity.
Qed.

Lemma rewrite_char_app (a : N) (new s1 s2 : str) :
  rewrite_char a new (s1 ++ s2) = rewrite_char a new s1 ++ rewrite_char a new s2.
Proof. apply flat_map_app. Qed.

Lemma new_key_steps (key : str) :
  new_key key
  = rewrite_char 179 [51%N]
      (rewrite_char 183 [95%N]
        (rewrite_char 178 [50%N]
          (rewrite_char 41 []
            (rewrite_char 40 [95%N]
              (rewrite_char 32 [95%N] key))))).
Proof.
  rewrite <- !replace_char. reflexivity.
Qed.

Lemma steps_one_char (c : N) :
  rewrite_char 179 [51%N]
    (rewrite_char 183 [95%N]
      (rewrite_char 178 [50%N]
        (rewrite_char 41 []
          (rewrite_char 40 [95%N]
            (rewrite_char 32 [95%N] [c])))))
  = token c.
Proof.
  unfold token, rewrite_char.
  cbn [flat_map app].
  destruct (N.eqb_spec c 32) as [->|H32]; [reflexivity|].
  cbn [flat_map app].
  destruct (N.eqb_spec c 40) as [->|H40]; [reflexivity|].
  cbn [flat_map app].
  destruct (N.eqb_spec c 41) as [->|H41]; [reflexivity|].
  cbn [flat_map app].
  destruct (N.eqb_spec c 178) as [->|H178]; [reflexivity|].
  cbn [flat_map app].
  destruct (N.eqb_spec c 183) as [->|H183]; [reflexivity|].
  cbn [flat_map app].
  destruct (N.eqb_spec c 179) as [->|H179]; reflexivity.
Qed.

Lemma new_key_tokens (key : str) :
  new_key key = flat_map token key.
Proof.
  induction key as [|c key IH]; [reflexivity|].
  rewrite new_key_steps in *.
  change (c :: key) with ([c] ++ key).
  rewrite !rewrite_char_app, IH, steps_one_char. reflexivity.
Qed.

Lemma token_clean (c0 c : N) : In c (token c0) -> rewritten c = false.
Proof.
  unfold token.
  destruct (N.eqb_spec c0 32); [intros [<-|[]]; reflexivity|].
  destruct (N.eqb_spec c0 40); [intros [<-|[]]; reflexivity|].
  destruct (N.eqb_spec c0 41); [intros []|].
  destruct (N.eqb_spec c0 178); [intros [<-|[]]; reflexivity|].
  destruct (N.eqb_spec c0 183); [intros [<-|[]]; reflexivity|].
  destruct (N.eqb_spec c0 179); [intros [<-|[]]; reflexivity|].
  intros [<-|[]]. unfold rewritten. cbn [existsb].
  repeat match goal with
         | H : c0 <> _ |- _ => apply N.eqb_neq in H; rewrite H; clear H
         end.
  reflexivity.
Qed.

Lemma dict_set_keys {V} (d : list (str * V)) (k : str) (v : V) (x : str) :
  In x (map fst (dict_set d k v)) <-> x = k \/ In x (map fst d).
Proof.
  induction d as [|[k' v'] d IH]; simpl.
  - intuition congruence.
  - destruct (list_eq_dec N.eq_dec k' k) as [->|Hne]; simpl.
    + intuition congruence.
    + rewrite IH. intuition congruence.
Qed.

Lemma standardize_loop_keys {V} (metrics acc : list (str * V)) (x : str) :
  In x (map fst
          (fold_left
             (fun standardized_metrics kv =>
                dict_set standardized_metrics (new_key (fst kv)) (snd kv))
             metrics acc))
  <-> In x (map fst acc) \/ In x (map (fun kv => new_key (fst kv)) metrics).
Proof.
  revert acc. induction metrics as [|kv metrics IH]; intros acc; simpl.
  - intuition.
  - rewrite IH, dict_set_keys. intuition congruence.
Qed.

End ColumnNameFacts.

(** C4 (as the code behaves).  [save_metrics_to_csv] derives a column
    name from a metric label character by character: a space, an opening
    parenthesis and a middle dot each become an underscore, a closing
    parenthesis is dropped, the superscripts two and three become the
    digits 2 and 3, and every other character is kept; none of the six
    characters remains; the columns written are the names so derived
    from the labels of the metrics; and the label ["RMS (cm²)"] maps to
    ["RMS__cm2"], with two underscores. *)
Theorem column_names_standardized :
  (forall key : str, new_key key = flat_map token key) /\
  (forall (key : str) (c : N), In c (new_key key) -> rewritten c = false) /\
  (forall (metrics_dict : list (str * Q)) (column : str),
      In column (fst (save_metrics_to_csv metrics_dict))
      <-> exists label : str,
            In label (map fst metrics_dict) /\ column = new_key label) /\
  new_key rms_label = str_of_string "RMS__cm2".
Proof.
  split; [exact new_key_tokens|]. split; [|split].
  - intros key c. rewrite new_key_tokens, in_flat_map.
    intros (c0 & _ & H). exact (token_clean c0 c H).
  - intros metrics_dict column.
    unfold save_metrics_to_csv, standardized_metrics. cbn [fst].
    rewrite standardize_loop_keys. simpl. rewrite in_map_iff. split.
    + intros [[]|((label, v) & <- & Hin)]. exists label.
      split; [|reflexivity]. apply in_map_iff. exists (label, v). auto.
    + intros (label & Hin & ->). right. apply in_map_iff in Hin.
      destruct Hin as ((label', v) & <- & Hin). exists (label', v). auto.
  - reflexivity.
Qed.

Lemma column_names_standardized_witness :
  rewritten 95 = false /\
  In (str_of_string "RMS__cm2") (fst (save_metrics_to_csv [(rms_label, 1%Q)])).
Proof.
  destruct column_names_standardized as (_ & Hclean & Hcols & _).
  split.
  - apply (Hclean rms_label 95%N). vm_compute. tauto.
  - apply (Hcols [(rms_label, 1%Q)] (str_of_string "RMS__cm2")).
    exists rms_label. split; [left; reflexivity | reflexivity].
Defined.

(** C4 as stated fails: the label ["RMS (cm²)"] does not map to
    ["RMS_cm2"]. *)
Lemma rms_label_not_single_underscore :
  new_key rms_label <> str_of_string "RMS_cm2".
Proof. vm_compute. discriminate. Qed.

(** * Further properties of the analysers *)

(** ** RMS *)

Section RmsFacts.

Lemma sum_square_nonneg (l : list Q) : (0 <= sum (square l))%Q.
Proof.
  induction l as [|x l IH]; [discriminate|].
  simpl. change 0%Q with (0 + 0)%Q.
  apply Qplus_le_compat; [apply sq_nonneg | exact IH].
Qed.

Lemma of_nat_pos (n : nat) : (0 < n)%nat -> (0 < of_nat n)%Q.
Proof.
  intros H. unfold of_nat. rewrite <- (Zlt_Qlt 0). lia.
Qed.

Lemma mean_square_nonneg (l : list Q) :
  l <> [] -> (0 <= sum (square l) / of_nat (length l))%Q.
Proof.
  intros H. apply Qle_shift_div_l.
  - apply of_nat_pos. destruct l; [congruence | simpl; lia].
  - rewrite Qmult_0_l. apply sum_square_nonneg.
Qed.

(** One axis of [compute_rms]. *)
Lemma rms_axis (l : list Q) :
  l <> [] ->
  sqrt_fp (mean (square l))
  = Num (R_sqrt.sqrt (Q2R (sum (square l) / of_nat (length l)))).
Proof.
  intros H. destruct l as [|x l]; [congruence|].
  unfold mean, square. cbn [map length sqrt_fp]. rewrite length_map.
  apply sqrt_Num. apply (mean_square_nonneg (x :: l) H).
Qed.

Lemma sum_square_zero (l : list Q) :
  Forall (fun x => x == 0)%Q l -> (sum (square l) == 0)%Q.
Proof.
  induction 1 as [|x l H0 _ IH]; [reflexivity|].
  simpl. fold (square l). rewrite IH. unfold sq. rewrite H0. reflexivity.
Qed.

End RmsFacts.

(** X2.  The RMS of a non-empty series whose samples are all 0 is 0,
    on either axis. *)
Theorem compute_rms_zero_series (cop_x cop_y : list Q) :
  (cop_x <> [] -> Forall (fun x => x == 0)%Q cop_x ->
   fst (compute_rms cop_x cop_y) = Num 0%R) /\
  (cop_y <> [] -> Forall (fun y => y == 0)%Q cop_y ->
   snd (compute_rms cop_x cop_y) = Num 0%R).
Proof.
  assert (axis : forall l : list Q,
            l <> [] -> Forall (fun x => x == 0)%Q l ->
            sqrt_fp (mean (square l)) = Num 0%R).
  { intros l H Hz. rewrite (rms_axis _ H). f_equal.
    rewrite (Qeq_eqR _ 0); [rewrite RMicromega.Q2R_0; apply sqrt_0|].
    unfold Qdiv. rewrite (sum_square_zero l Hz). apply Qmult_0_l. }
  unfold compute_rms. cbn [fst snd]. split; apply axis.
Qed.

Lemma compute_rms_zero_series_witness :
  fst (compute_rms [0; 0; 0]%Q [1]%Q) = Num 0%R.
Proof.
  apply (proj1 (compute_rms_zero_series [0; 0; 0]%Q [1]%Q)).
  - discriminate.
  - repeat constructor.
Defined.

(** ** Zero-crossings *)

Section ZeroCrossingFacts.

Lemma ltb_lt (x y : Q) : ltb x y = true <-> (x < y)%Q.
Proof.
  unfold ltb. rewrite Qlt_alt. destruct (x ?= y)%Q; split; congruence.
Qed.

Lemma ltb_comp (x x' y y' : Q) :
  (x == x')%Q -> (y == y')%Q -> ltb x y = ltb x' y'.
Proof.
  intros Hx Hy. unfold ltb. rewrite (Qcompare_comp x x' Hx y y' Hy). reflexivity.
Qed.

Lemma adjacent_products (x : Q) (l : list Q) :
  count_true (map (fun p => ltb p 0) (zip_with Qmult (firstn (length l) (x :: l)) l))
  = sign_changes (x :: l).
Proof.
  revert x. induction l as [|y l IH]; intros x; [reflexivity|].
  cbn [length firstn zip_with map count_true fold_right].
  fold (count_true (map (fun p => ltb p 0)
                        (zip_with Qmult (firstn (length l) (y :: l)) l))).
  rewrite IH. cbn [sign_changes].
  destruct (ltb (x * y) 0); reflexivity.
Qed.

Lemma zero_crossings_pairs (signal : list Q) :
  count_zero_crossings signal = Ok (sign_changes signal).
Proof.
  unfold count_zero_crossings.
  rewrite broadcast_same_length by apply zero_crossing_slices.
  cbn [bind]. f_equal.
  destruct signal as [|x l]; [reflexivity|].
  unfold slice_to, slice_from.
  replace (clip_index (length (x :: l)) (-1)) with (length l)
    by (unfold clip_index; change (-1 <? 0)%Z with true; cbv iota;
        cbn [length]; lia).
  replace (clip_index (length (x :: l)) 1) with 1%nat
    by (unfold clip_index; change (1 <? 0)%Z with false; cbv iota;
        cbn [length]; lia).
  apply adjacent_products.
Qed.

Lemma sign_changes_app (a b : list Q) (d : Q) :
  a <> [] -> b <> [] ->
  sign_changes (a ++ b)
  = (sign_changes a + sign_changes b
     + (if ltb (last a d * hd d b) 0 then 1 else 0))%nat.
Proof.
  intros Ha Hb. destruct b as [|q b]; [congruence|]. clear Hb.
  induction a as [|p a IH]; [congruence|]. clear Ha.
  destruct a as [|p2 a].
  - cbn [app last hd]. 
    change (sign_changes (p :: q :: b))
      with ((if ltb (p * q) 0 then 1 else 0) + sign_changes (q :: b))%nat.
    simpl (sign_changes [p]). lia.
  - change (sign_changes ((p :: p2 :: a) ++ q :: b))
      with ((if ltb (p * p2) 0 then 1 else 0)
            + sign_changes ((p2 :: a) ++ q :: b))%nat.
    rewrite IH by discriminate.
    change (sign_changes (p :: p2 :: a))
      with ((if ltb (p * p2) 0 then 1 else 0) + sign_changes (p2 :: a))%nat.
    change (last (p :: p2 :: a) d) with (last (p2 :: a) d).
    lia.
Qed.

Lemma sign_changes_rev (l : list Q) : sign_changes (rev l) = sign_changes l.
Proof.
  induction l as [|p l IH]; [reflexivity|].
  destruct l as [|q l]; [reflexivity|].
  change (rev (p :: q :: l)) with (rev (q :: l) ++ [p]).
  rewrite (sign_changes_app _ _ p).
  - rewrite IH, last_rev_hd. cbn [hd].
    change (sign_changes (p :: q :: l))
      with ((if ltb (p * q) 0 then 1 else 0) + sign_changes (q :: l))%nat.
    rewrite (ltb_comp (q * p) (p * q) 0 0) by (try reflexivity; apply Qmult_comm).
    simpl (sign_changes [p]). lia.
  - simpl. intros H. apply app_eq_nil in H. destruct H; discriminate.
  - discriminate.
Qed.

End ZeroCrossingFacts.

(** X5.  The zero-crossing count is the same for the reversed series. *)
Theorem zero_crossings_reversed (signal : list Q) :
  count_zero_crossings (rev signal) = count_zero_crossings signal.
Proof.
  rewrite !zero_crossings_pairs, sign_changes_rev. reflexivity.
Qed.

(** ** Peaks *)

Section PeakFacts.

Lemma ltb_false_ge (x y : Q) : (y <= x)%Q -> ltb x y = false.
Proof.
  intros H. destruct (ltb x y) eqn:E; [|reflexivity].
  apply ltb_lt in E. exfalso. apply (Qlt_not_le _ _ E H).
Qed.

(** Without equal neighbours the scan counts the strict local maxima;
    [left] is set exactly when the last step was a rise. *)
Lemma local_maxima_strict (rest : list Q) :
  forall (a b : Q) (i : nat) (left : option nat),
    adjacent_distinct (b :: rest) ->
    (left <> None <-> (a < b)%Q) ->
    length (local_maxima i left b rest) = strict_maxima (a :: b :: rest).
Proof.
  induction rest as [|x rest IH]; intros a b i left Hd Hl; [reflexivity|].
  destruct Hd as [Hbx Hd].
  change (strict_maxima (a :: b :: x :: rest))
    with ((if ltb a b && ltb x b then 1 else 0) + strict_maxima (b :: x :: rest))%nat.
  cbn [local_maxima].
  destruct (Qcompare_spec b x) as [Heq|Hlt|Hgt].
  - contradiction.
  - rewrite (IH b x (S i) (Some i) Hd)
      by (split; [intros _; exact Hlt | discriminate]).
    rewrite (ltb_false_ge x b) by (apply Qlt_le_weak, Hlt).
    rewrite andb_false_r. reflexivity.
  - assert (Hxb : ltb x b = true) by (apply ltb_lt, Hgt).
    assert (Hnone : (@None nat <> None) <-> (b < x)%Q).
    { split; [congruence|]. intros H. exfalso.
      apply (Qlt_irrefl b). eapply Qlt_trans; eassumption. }
    rewrite Hxb, andb_true_r. destruct left as [l|].
    + cbn [length]. rewrite (IH b x (S i) None Hd Hnone).
      assert (Hab : ltb a b = true) by (apply ltb_lt, Hl; discriminate).
      rewrite Hab. reflexivity.
    + rewrite (IH b x (S i) None Hd Hnone).
      destruct (ltb a b) eqn:Hab; [|reflexivity].
      apply ltb_lt, Hl in Hab. congruence.
Qed.

Lemma local_maxima_nondecreasing (rest : list Q) :
  forall (i : nat) (left : option nat) (prev : Q),
    nondecreasing (prev :: rest) -> local_maxima i left prev rest = [].
Proof.
  induction rest as [|x rest IH]; intros i left prev H; [reflexivity|].
  destruct H as [Hle H]. cbn [local_maxima].
  destruct (Qcompare_spec prev x) as [Heq|Hlt|Hgt]; try (apply IH; exact H).
  exfalso. apply (Qlt_not_le _ _ Hgt Hle).
Qed.

Lemma local_maxima_nonincreasing (rest : list Q) :
  forall (i : nat) (prev : Q),
    nonincreasing (prev :: rest) -> local_maxima i None prev rest = [].
Proof.
  induction rest as [|x rest IH]; intros i prev H; [reflexivity|].
  destruct H as [Hle H]. cbn [local_maxima].
  destruct (Qcompare_spec prev x) as [Heq|Hlt|Hgt]; try (apply IH; exact H).
  exfalso. apply (Qlt_not_le _ _ Hlt Hle).
Qed.

Lemma midpoint_between (l i : nat) :
  (l < i)%nat ->
  (l <= Nat.div (l + (i - 1)) 2 /\ Nat.div (l + (i - 1)) 2 <= i - 1)%nat.
Proof.
  intros H. pose proof (Nat.div_mod_eq (l + (i - 1)) 2) as E.
  pose proof (Nat.mod_upper_bound (l + (i - 1)) 2) as U. lia.
Qed.

(** Where the scan reports peaks, in which order, and how many. *)
Lemma local_maxima_indices (rest : list Q) :
  forall (i : nat) (left : option nat) (prev : Q),
    (forall l, left = Some l -> (l < i)%nat) ->
    let lo := match left with Some l => l | None => i end in
    let out := local_maxima i left prev rest in
    Forall (fun p => lo <= p /\ p + 1 < i + length rest)%nat out /\
    StronglySorted lt out /\
    (2 * length out
     <= length rest + match left with Some _ => 1 | None => 0 end)%nat.
Proof.
  induction rest as [|x rest IH]; intros i left prev Hl lo out.
  - subst out. cbn. repeat split; try constructor. destruct left; lia.
  - subst out. cbn [local_maxima]. destruct (prev ?= x)%Q.
    + destruct (IH (S i) left x) as (Hb & Hs & Hc).
      { intros l E. specialize (Hl l E). lia. }
      split; [|split; [exact Hs|]].
      * eapply Forall_impl; [|exact Hb]. cbn [length]. intros p [H1 H2].
        subst lo. destruct left as [l|]; lia.
      * cbn [length]. destruct left; lia.
    + destruct (IH (S i) (Some i) x) as (Hb & Hs & Hc).
      { intros l E. injection E as <-. lia. }
      split; [|split; [exact Hs|]].
      * eapply Forall_impl; [|exact Hb]. cbn [length]. intros p [H1 H2].
        subst lo. destruct left as [l|]; [specialize (Hl l eq_refl)|]; lia.
      * cbn [length]. destruct left; lia.
    + destruct (IH (S i) None x) as (Hb & Hs & Hc); [discriminate|].
      destruct left as [l|].
      * specialize (Hl l eq_refl).
        destruct (midpoint_between l i Hl) as [M1 M2].
        split; [|split].
        -- constructor; [cbn [length]; subst lo; lia|].
           eapply Forall_impl; [|exact Hb]. cbn [length]. intros p [H1 H2].
           subst lo. lia.
        -- constructor; [exact Hs|].
           eapply Forall_impl; [|exact Hb]. intros p [H1 H2]. lia.
        -- cbn [length]. lia.
      * split; [|split; [exact Hs|]].
        -- eapply Forall_impl; [|exact Hb]. cbn [length]. intros p [H1 H2].
           subst lo. lia.
        -- cbn [length]. lia.
Qed.

End PeakFacts.

(** X6.  On a series without equal neighbouring samples [count_peaks]
    returns the number of samples strictly above both neighbours. *)
Theorem count_peaks_strict_maxima (signal : list Q) :
  adjacent_distinct signal ->
  count_peaks signal = Ok (strict_maxima signal).
Proof.
  intros H. unfold count_peaks, find_peaks.
  destruct signal as [|a [|b rest]]; try reflexivity.
  cbn [bind]. f_equal. destruct H as [Hab H].
  cbn [local_maxima].
  destruct (Qcompare_spec a b) as [Heq|Hlt|Hgt]; [contradiction| |].
  - apply local_maxima_strict; [exact H|].
    split; [intros _; exact Hlt | discriminate].
  - apply local_maxima_strict; [exact H|].
    split; [congruence|]. intros Hlt. exfalso.
    apply (Qlt_irrefl a). eapply Qlt_trans; eassumption.
Qed.

Lemma count_peaks_strict_maxima_witness :
  count_peaks [0; 1; 0; -1; 0; 1; 0; -1]%Q
  = Ok (strict_maxima [0; 1; 0; -1; 0; 1; 0; -1]%Q).
Proof.
  apply (count_peaks_strict_maxima [0; 1; 0; -1; 0; 1; 0; -1]%Q).
  simpl. repeat split; discriminate.
Defined.

(** X7.  A series that never decreases, or never increases (a constant
    series in particular), has no peak. *)
Theorem count_peaks_monotone (signal : list Q) :
  nondecreasing signal \/ nonincreasing signal ->
  count_peaks signal = Ok 0%nat.
Proof.
  intros H. unfold count_peaks, find_peaks.
  destruct signal as [|a rest]; [reflexivity|]. cbn [bind].
  destruct H as [H|H].
  - rewrite local_maxima_nondecreasing by exact H. reflexivity.
  - rewrite local_maxima_nonincreasing by exact H. reflexivity.
Qed.

Lemma count_peaks_monotone_witness :
  count_peaks [1; 2; 2; 5]%Q = Ok 0%nat /\ count_peaks [4; 4; 4]%Q = Ok 0%nat.
Proof.
  split.
  - apply (count_peaks_monotone [1; 2; 2; 5]%Q). left.
    simpl. repeat split; discriminate.
  - apply (count_peaks_monotone [4; 4; 4]%Q). right.
    simpl. repeat split; discriminate.
Defined.

(** X8.  The peaks [find_peaks] reports are interior indices
    ([1 <= p <= N - 2]) in strictly increasing order, and there are at
    most [(N - 1) / 2] of them. *)
Theorem find_peaks_indices (signal : list Q) :
  exists peaks : list nat,
    find_peaks signal = Ok peaks /\
    Forall (fun p => 1 <= p /\ p + 1 < length signal)%nat peaks /\
    StronglySorted lt peaks /\
    count_peaks signal = Ok (length peaks) /\
    (2 * length peaks <= length signal - 1)%nat.
Proof.
  unfold count_peaks, find_peaks. destruct signal as [|a rest].
  - exists []. repeat split; constructor.
  - exists (local_maxima 1 None a rest).
    destruct (local_maxima_indices rest 1 None a) as (Hb & Hs & Hc);
      [discriminate|].
    split; [reflexivity|]. split; [|split; [exact Hs|split; [reflexivity|]]].
    + eapply Forall_impl; [|exact Hb]. cbn [length]. intros p [H1 H2]. lia.
    + cbn [length]. lia.
Qed.

(** X9.  [count_peaks] is never below the number of samples strictly
    above both neighbours (a flat-topped peak adds to the count). *)
Theorem count_peaks_at_least_strict (signal : list Q) :
  exists n : nat,
    count_peaks signal = Ok n /\ (strict_maxima signal <= n)%nat.
Proof.
  assert (scan : forall (rest : list Q) (a b : Q) (i : nat) (left : option nat),
             ((a < b)%Q -> left <> None) ->
             (strict_maxima (a :: b :: rest)
              <= length (local_maxima i left b rest))%nat).
  { induction rest as [|x rest IH]; intros a b i left Hl; [apply le_n|].
    change (strict_maxima (a :: b :: x :: rest))
      with ((if ltb a b && ltb x b then 1 else 0)
            + strict_maxima (b :: x :: rest))%nat.
    cbn [local_maxima].
    destruct (Qcompare_spec b x) as [Heq|Hlt|Hgt].
    - rewrite (ltb_false_ge x b) by (rewrite Heq; apply Qle_refl).
      rewrite andb_false_r. apply (IH b x (S i) left).
      intros H. exfalso. rewrite Heq in H. apply (Qlt_irrefl _ H).
    - rewrite (ltb_false_ge x b) by (apply Qlt_le_weak, Hlt).
      rewrite andb_false_r. apply (IH b x (S i) (Some i)). discriminate.
    - assert (Hnone : (b < x)%Q -> @None nat <> None).
      { intros H. exfalso. apply (Qlt_irrefl b). eapply Qlt_trans; eassumption. }
      pose proof (IH b x (S i) None Hnone) as Hrec.
      destruct left as [l|].
      + cbn [length]. destruct (ltb a b && ltb x b); lia.
      + destruct (ltb a b) eqn:Hab.
        * apply ltb_lt, Hl in Hab. congruence.
        * exact Hrec. }
  unfold count_peaks, find_peaks.
  destruct signal as [|a [|b rest]];
    try (eexists; split; [reflexivity | apply le_n]).
  eexists. split; [reflexivity|]. cbn [local_maxima].
  destruct (Qcompare_spec a b) as [Heq|Hlt|Hgt]; apply scan.
  - intros H. exfalso. rewrite Heq in H. apply (Qlt_irrefl _ H).
  - discriminate.
  - intros H. exfalso. apply (Qlt_irrefl a). eapply Qlt_trans; eassumption.
Qed.

(** ** Mean square displacement: further properties *)

Section MsdMoreFacts.

Lemma mean_nonneg (d : list Q) (m : Q) :
  mean (square d) = Num m -> (0 <= m)%Q.
Proof.
  destruct d as [|x d]; [discriminate|].
  unfold mean, square. cbn [map]. intros H. injection H as <-.
  assert (P : (0 <= sum (square (x :: d)) / of_nat (length (x :: d)))%Q)
    by (apply mean_square_nonneg; discriminate).
  unfold square in P. cbn [map length] in *. rewrite length_map. exact P.
Qed.

End MsdMoreFacts.

(** X10.  A number returned by [compute_msd] is never negative. *)
Theorem compute_msd_nonneg (S : list Q) (fs delta_t m : Q) :
  compute_msd S fs delta_t = Ok (Num m) -> (0 <= m)%Q.
Proof.
  unfold compute_msd.
  destruct (int (delta_t * fs) >=? Z.of_nat (length S))%Z; [discriminate|].
  destruct (broadcast Qminus _ _) as [d|e]; [|discriminate].
  cbn [bind]. intros H. injection H as H. exact (mean_nonneg d m H).
Qed.

Lemma compute_msd_nonneg_witness :
  (0 <= lagged_msd [1; 3; 6]%Q 1)%Q.
Proof.
  apply (compute_msd_nonneg [1; 3; 6]%Q 2 (3 # 4)).
  apply compute_msd_lag; [reflexivity | simpl; lia].
Defined.

(** X11.  A negative lag is not rejected: when the [float64] product
    [delta_t * fs] truncates to [-k] with [1 <= k <= N], [compute_msd]
    returns the mean square displacement at the lag [N - k]. *)
Theorem compute_msd_negative_lag
        (S : list Binary64.float64) (fs delta_t : Binary64.float64) (k : nat) :
  Binary64.int (Binary64.mul delta_t fs) = Ok (- Z.of_nat k)%Z ->
  (1 <= k <= length S)%nat ->
  Stabilogram64.compute_msd S fs delta_t
  = Ok (Spec64.lagged_msd S (length S - k)).
Proof.
  intros Hk Hr. unfold Stabilogram64.compute_msd. rewrite Hk. cbn [bind].
  rewrite Z.opp_involutive.
  destruct (Z.geb_spec (- Z.of_nat k) (Z.of_nat (length S))); [lia|].
  rewrite (negative_lag_zip Binary64.sub Binary64.zero) by exact Hr.
  cbn [bind]. unfold Spec64.lagged_msd, Np64.square. rewrite map_map.
  replace (length S - (length S - k))%nat with k by lia. reflexivity.
Qed.

(** -0.03 * 100.0 is -3.0 in [float64]: on four samples the lag is 1. *)
Lemma compute_msd_negative_lag_witness :
  let S := [Binary64.ratio 1 10; Binary64.ratio 3 10; Binary64.ratio 2 10;
            Binary64.ratio 5 10] in
  Stabilogram64.compute_msd S (Binary64.of_int 100) (Binary64.ratio (-3) 100)
  = Ok (Spec64.lagged_msd S (length S - 3)).
Proof.
  intros S.
  apply (compute_msd_negative_lag S (Binary64.of_int 100) (Binary64.ratio (-3) 100) 3);
    [reflexivity | simpl; lia].
Defined.

(** ** Sway density: further properties *)

Section SwayDensityMoreFacts.


Lemma count_true_all {A} (g : A -> bool) (l : list A) :
  (forall x, In x l -> g x = true) -> count_true (map g l) = length l.
Proof.
  induction l as [|x l IH]; intros H; [reflexivity|].
  cbn [map count_true fold_right length]. fold (count_true (map g l)).
  rewrite (H x) by (left; reflexivity). f_equal.
  apply IH. intros y Hy. apply H. right. exact Hy.
Qed.

(** The count behind sample [t] of the sway density. *)
Lemma sway_density_at_count (S : list Q) (radius : Q) (t : nat) :
  sway_density_at S radius t
  = (of_nat (count_true
               (map (fun x => leb (Qabs (x - nth t S 0)) radius) S))
     / of_nat (length S))%Q.
Proof.
  unfold sway_density_at. rewrite !map_map. reflexivity.
Qed.

End SwayDensityMoreFacts.



(** X15.  When every two samples lie within [radius] of each other (a
    constant series, or a radius at least the spread of the data), every
    sway-density value is 1. *)
Theorem sway_density_saturated (S : list Q) (fs radius : Q) :
  (forall x y : Q, In x S -> In y S -> (Qabs (x - y) <= radius)%Q) ->
  Forall (fun v => v == 1)%Q (compute_sway_density S fs radius).
Proof.
  intros H. rewrite sway_density_map.
  apply Forall_map, Forall_forall. intros t Ht. apply in_seq in Ht.
  rewrite sway_density_at_count, count_true_all.
  - apply Qmult_inv_r. intros Hz.
    apply (Qlt_irrefl 0). rewrite <- Hz at 2. apply of_nat_pos. lia.
  - intros x Hx. apply leb_le. apply H; [exact Hx|].
    apply nth_In. lia.
Qed.

Lemma sway_density_saturated_witness :
  Forall (fun v => v == 1)%Q (compute_sway_density [2; 2; 2]%Q 8 0).
Proof.
  apply (sway_density_saturated [2; 2; 2]%Q 8 0).
  intros x y Hx Hy. simpl in Hx, Hy.
  destruct Hx as [<-|[<-|[<-|[]]]]; destruct Hy as [<-|[<-|[<-|[]]]];
    discriminate.
Defined.

(** ** Path length: further properties *)

Section PathLengthMoreFacts.


Lemma broadcast_mismatch {A B} (f : A -> A -> B) (a b : list A) :
  length a <> length b -> (2 <= length a)%nat -> (2 <= length b)%nat ->
  broadcast f a b = Raise (BroadcastError (length a) (length b)).
Proof.
  intros Hne Ha Hb. unfold broadcast.
  destruct (Nat.eqb_spec (length a) (length b)); [contradiction|].
  destruct a as [|x [|x' a]], b as [|y [|y' b]]; simpl in *; try lia.
  reflexivity.
Qed.

End PathLengthMoreFacts.

(** X18.  [compute_total_path_length] does not reject short input: with
    at most one sample in each series it returns 0.  Series of different
    lengths, each of at least 3 samples, raise NumPy's broadcast error
    for the shapes of the two difference arrays. *)
Theorem path_length_edge_cases (xs ys : list Q) :
  ((length xs <= 1)%nat -> (length ys <= 1)%nat ->
   compute_total_path_length xs ys = Ok (Num 0%R)) /\
  ((3 <= length xs)%nat -> (3 <= length ys)%nat -> length xs <> length ys ->
   compute_total_path_length xs ys
   = Raise (BroadcastError (length xs - 1) (length ys - 1))).
Proof.
  split.
  - intros Hx Hy.
    destruct xs as [|x [|x' xs]], ys as [|y [|y' ys]]; simpl in Hx, Hy;
      try lia; reflexivity.
  - intros Hx Hy Hne. unfold compute_total_path_length.
    rewrite broadcast_mismatch;
      unfold square; rewrite ?length_map, ?diff_length; try lia.
    reflexivity.
Qed.

Lemma path_length_edge_cases_witness :
  compute_total_path_length [7]%Q [] = Ok (Num 0%R) /\
  compute_total_path_length [0; 1; 2]%Q [0; 1; 2; 3]%Q
  = Raise (BroadcastError 2 3).
Proof.
  split.
  - apply (proj1 (path_length_edge_cases [7]%Q [])); simpl; lia.
  - apply (proj2 (path_length_edge_cases [0; 1; 2]%Q [0; 1; 2; 3]%Q));
      simpl; lia.
Defined.

Section PathLengthZeroFacts.



End PathLengthZeroFacts.



(** ** Velocity: when the call succeeds *)

Section WindowMoreFacts.

Lemma default_window (n : nat) :
  (3 < effective_window_length n 5)%Z <-> (6 <= n)%nat.
Proof.
  unfold effective_window_length. set (N := Z.of_nat n).
  assert (HN : (6 <= n)%nat <-> (6 <= N)%Z) by (unfold N; lia).
  rewrite HN.
  destruct (Z.eqb_spec (Z.min 5 (N / 2 * 2 - 1) mod 2) 0);
    Z.div_mod_to_equations; lia.
Qed.

Lemma effective_window_idempotent (n : nat) (w : Z) :
  effective_window_length n (effective_window_length n w)
  = effective_window_length n w.
Proof.
  pose proof (effective_window_odd n w) as Ho.
  pose proof (effective_window_below n w) as Hb.
  set (e := effective_window_length n w) in *.
  rewrite odd_mod in Ho. apply Z.eqb_eq in Ho.
  unfold effective_window_length. set (N := Z.of_nat n) in *.
  destruct (Z.eqb_spec (Z.min e (N / 2 * 2 - 1) mod 2) 0);
    Z.div_mod_to_equations; lia.
Qed.

Lemma effective_window_request (n : nat) (w : Z) :
  (effective_window_length n w <= w + 1)%Z.
Proof.
  unfold effective_window_length. set (N := Z.of_nat n).
  destruct (Z.eqb_spec (Z.min w (N / 2 * 2 - 1) mod 2) 0);
    Z.div_mod_to_equations; lia.
Qed.

End WindowMoreFacts.

Section SpeedMoreFacts.

Variable savgol_sample : list Q -> Z -> Z -> Z -> Q -> nat -> Q.

Lemma savgol_filter_ok_iff (x : list Q) (w p d : Z) (delta : Q) :
  (exists y, savgol_filter savgol_sample x w p d delta = Ok y)
  <-> (0 <= p < w)%Z /\ (w <= Z.of_nat (length x))%Z.
Proof.
  split.
  - intros [y H]. unfold savgol_filter in H.
    destruct (Z.geb_spec p w); [discriminate|].
    destruct (Z.ltb_spec w 1); [discriminate|].
    destruct (Z.gtb_spec w (Z.of_nat (length x))); [discriminate|].
    destruct (Z.ltb_spec p 0); [discriminate|]. lia.
  - intros [Hp Hw]. eexists. apply savgol_filter_ok; assumption.
Qed.

Lemma compute_speed_ok_iff (cop_x cop_y : list Q) (fs : Q) (w p : Z) :
  ~ (fs == 0)%Q ->
  ((exists out, compute_speed savgol_sample cop_x cop_y fs w p = Ok out)
   <-> (0 <= p < effective_window_length (length cop_x) w)%Z /\
       (effective_window_length (length cop_x) w <= Z.of_nat (length cop_y))%Z).
Proof.
  intros Hfs. unfold compute_speed.
  destruct (Qeq_bool fs 0) eqn:E; [apply Qeq_bool_eq in E; contradiction|].
  set (e := effective_window_length (length cop_x) w).
  pose proof (effective_window_below (length cop_x) w) as Hb. fold e in Hb.
  split.
  - intros [out H].
    destruct (savgol_filter savgol_sample cop_x e p 1 (1 / fs)) as [sx|ex] eqn:Hx;
      [|discriminate].
    destruct (savgol_filter savgol_sample cop_y e p 1 (1 / fs)) as [sy|ey] eqn:Hy;
      [|discriminate].
    assert (Hy' : exists y, savgol_filter savgol_sample cop_y e p 1 (1 / fs) = Ok y)
      by (eexists; exact Hy).
    apply savgol_filter_ok_iff in Hy'. exact Hy'.
  - intros [Hp Hw].
    rewrite !savgol_filter_ok by (try exact Hp; lia).
    eexists. reflexivity.
Qed.

End SpeedMoreFacts.

(** X20.  For [fs] other than 0, [compute_speed] returns exactly when
    the polynomial order is non-negative and below the effective window
    and that window does not exceed the length of [cop_y] (the window
    is computed from [cop_x] alone). *)
Theorem compute_speed_outcome
        (savgol_sample : list Q -> Z -> Z -> Z -> Q -> nat -> Q)
        (cop_x cop_y : list Q) (fs : Q) (w p : Z) :
  ~ (fs == 0)%Q ->
  ((exists out, compute_speed savgol_sample cop_x cop_y fs w p = Ok out)
   <-> (0 <= p < effective_window_length (length cop_x) w)%Z /\
       (effective_window_length (length cop_x) w <= Z.of_nat (length cop_y))%Z).
Proof.
  apply compute_speed_ok_iff.
Qed.

Lemma compute_speed_outcome_witness :
  (exists out,
      compute_speed (fun _ _ _ _ _ i => Np.of_nat i) scenario_x [1; 2]%Q 8 5 3
      = Ok out)
  <-> (0 <= 3 < effective_window_length (length scenario_x) 5)%Z /\
      (effective_window_length (length scenario_x) 5
       <= Z.of_nat (length [1; 2]%Q))%Z.
Proof.
  apply (compute_speed_outcome (fun _ _ _ _ _ i => Np.of_nat i)
           scenario_x [1; 2]%Q 8 5 3).
  discriminate.
Defined.

(** X21.  With the default window length 5 and polynomial order 3, on
    two series of the same length and [fs] other than 0, [compute_speed]
    returns exactly when the series have at least 6 samples. *)
Theorem compute_speed_default_needs_six
        (savgol_sample : list Q -> Z -> Z -> Z -> Q -> nat -> Q)
        (cop_x cop_y : list Q) (fs : Q) :
  ~ (fs == 0)%Q -> length cop_x = length cop_y ->
  ((exists out, compute_speed savgol_sample cop_x cop_y fs 5 3 = Ok out)
   <-> (6 <= length cop_x)%nat).
Proof.
  intros Hfs Hlen.
  pose proof (compute_speed_ok_iff savgol_sample cop_x cop_y fs 5 3 Hfs) as Hiff.
  pose proof (default_window (length cop_x)) as Hsix.
  pose proof (effective_window_below (length cop_x) 5) as Hb.
  rewrite <- Hlen in Hiff. split.
  - intros Hex. apply Hiff in Hex. apply Hsix. lia.
  - intros H6. apply Hiff. apply Hsix in H6. lia.
Qed.

Lemma compute_speed_default_needs_six_witness :
  (exists out,
      compute_speed (fun _ _ _ _ _ i => Np.of_nat i)
                    [1; 2; 3; 4; 5]%Q [1; 2; 3; 4; 5]%Q 8 5 3 = Ok out)
  <-> (6 <= length [1; 2; 3; 4; 5]%Q)%nat.
Proof.
  apply (compute_speed_default_needs_six (fun _ _ _ _ _ i => Np.of_nat i)
           [1; 2; 3; 4; 5]%Q [1; 2; 3; 4; 5]%Q 8);
    [discriminate | reflexivity].
Defined.

(** X22.  The window [compute_speed] hands to the filter is always odd,
    at most [N - 1], at most one more than the request, and a fixed
    point: asking for it again gives it back. *)
Theorem effective_window_invariants (n : nat) (w : Z) :
  let e := effective_window_length n w in
  Z.odd e = true /\ (e <= Z.of_nat n - 1)%Z /\ (e <= w + 1)%Z /\
  effective_window_length n e = e.
Proof.
  intros e. split; [apply effective_window_odd|].
  split; [apply effective_window_below|].
  split; [apply effective_window_request | apply effective_window_idempotent].
Qed.

(** ** The metrics table *)

Section MetricsTableFacts.

Context {V : Type}.

Lemma dict_get_set (d : list (str * V)) (k k0 : str) (v : V) :
  dict_get (dict_set d k v) k0
  = if list_eq_dec N.eq_dec k k0 then Some v else dict_get d k0.
Proof.
  induction d as [|[k' v'] d IH]; simpl.
  - reflexivity.
  - destruct (list_eq_dec N.eq_dec k' k) as [->|Hne]; simpl.
    + destruct (list_eq_dec N.eq_dec k k0); reflexivity.
    + rewrite IH. destruct (list_eq_dec N.eq_dec k' k0) as [->|Hne0];
        [|reflexivity].
      destruct (list_eq_dec N.eq_dec k k0); [congruence | reflexivity].
Qed.

Lemma find_snoc (p : str * V -> bool) (l : list (str * V)) (x : str * V) :
  find p (l ++ [x])
  = match find p l with
    | Some y => Some y
    | None => if p x then Some x else None
    end.
Proof.
  induction l as [|y l IH]; simpl; [reflexivity|].
  destruct (p y); [reflexivity | exact IH].
Qed.

(** Looking a column up in the dictionary the loop has built. *)
Lemma standardize_loop_get (metrics acc : list (str * V)) (k : str) :
  dict_get
    (fold_left
       (fun standardized_metrics kv =>
          dict_set standardized_metrics (new_key (fst kv)) (snd kv))
       metrics acc) k
  = match find (names_column k) (rev metrics) with
    | Some kv => Some (snd kv)
    | None => dict_get acc k
    end.
Proof.
  revert acc. induction metrics as [|kv metrics IH]; intros acc; [reflexivity|].
  cbn [fold_left rev]. rewrite IH, find_snoc, dict_get_set.
  destruct (find (names_column k) (rev metrics)); [reflexivity|].
  unfold names_column.
  destruct (list_eq_dec N.eq_dec (new_key (fst kv)) k); reflexivity.
Qed.

Lemma dict_set_nodup (d : list (str * V)) (k : str) (v : V) :
  NoDup (map fst d) -> NoDup (map fst (dict_set d k v)).
Proof.
  induction d as [|[k' v'] d IH]; simpl; intros H.
  - constructor; [intros [] | constructor].
  - inversion H as [|x l Hnotin Hnd]; subst.
    destruct (list_eq_dec N.eq_dec k' k) as [->|Hne]; simpl.
    + constructor; assumption.
    + constructor; [|apply IH, Hnd].
      rewrite dict_set_keys. intros [Heq|Hin]; [congruence | contradiction].
Qed.

Lemma dict_set_length (d : list (str * V)) (k : str) (v : V) :
  (length (dict_set d k v) <= Datatypes.S (length d))%nat.
Proof.
  induction d as [|[k' v'] d IH]; simpl; [lia|].
  destruct (list_eq_dec N.eq_dec k' k); simpl; lia.
Qed.

Lemma standardize_loop_shape (metrics acc : list (str * V)) :
  NoDup (map fst acc) ->
  let d := fold_left
             (fun standardized_metrics kv =>
                dict_set standardized_metrics (new_key (fst kv)) (snd kv))
             metrics acc in
  NoDup (map fst d) /\ (length d <= length acc + length metrics)%nat.
Proof.
  revert acc. induction metrics as [|kv metrics IH]; intros acc H d.
  - subst d. simpl. split; [exact H | lia].
  - subst d. cbn [fold_left].
    destruct (IH (dict_set acc (new_key (fst kv)) (snd kv))) as [Hn Hl];
      [apply dict_set_nodup, H|].
    split; [exact Hn|].
    pose proof (dict_set_length acc (new_key (fst kv)) (snd kv)).
    cbn [length]. lia.
Qed.

Lemma combine_fst_snd (l : list (str * V)) :
  combine (map fst l) (map snd l) = l.
Proof.
  induction l as [|[k v] l IH]; simpl; [reflexivity | now rewrite IH].
Qed.

End MetricsTableFacts.

(** X23.  The table [save_metrics_to_csv] writes has one value per
    column, no column name twice, and at most as many columns as there
    are metrics; when several labels standardise to the same column
    name, the column holds the value of the last of them. *)
Theorem metrics_table_shape (metrics_dict : list (str * Q)) :
  let header := fst (save_metrics_to_csv metrics_dict) in
  let row := snd (save_metrics_to_csv metrics_dict) in
  NoDup header /\ length header = length row /\
  (length header <= length metrics_dict)%nat /\
  forall k : str, dict_get (combine header row) k = last_value metrics_dict k.
Proof.
  intros header row. subst header row.
  unfold save_metrics_to_csv. cbn [fst snd].
  destruct (standardize_loop_shape metrics_dict []) as [Hn Hl]; [constructor|].
  fold (standardized_metrics metrics_dict) in Hn, Hl.
  split; [exact Hn|]. split; [rewrite !length_map; reflexivity|].
  split; [rewrite length_map; exact Hl|].
  intros k. rewrite combine_fst_snd. unfold standardized_metrics.
  rewrite standardize_loop_get. unfold last_value.
  destruct (find (names_column k) (rev metrics_dict)); reflexivity.
Qed.

Section NewKeyFacts.

Lemma token_fixed (c : N) : rewritten c = false -> token c = [c].
Proof.
  unfold rewritten, token. cbn [existsb]. intros H.
  repeat match goal with
         | H' : (_ || _) = false |- _ =>
             apply orb_false_elim in H'; destruct H' as [E H']; rewrite E; clear E
         end.
  reflexivity.
Qed.

Lemma new_key_clean (key : str) :
  (forall c, In c key -> rewritten c = false) -> new_key key = key.
Proof.
  rewrite new_key_tokens. induction key as [|c key IH]; intros H; [reflexivity|].
  cbn [flat_map]. rewrite token_fixed by (apply H; left; reflexivity).
  cbn [app]. f_equal. apply IH. intros c' Hc'. apply H. right. exact Hc'.
Qed.

Lemma token_short (c : N) : (length (token c) <= 1)%nat.
Proof.
  unfold token.
  repeat match goal with
         | |- context [if ?b then _ else _] => destruct b
         end; simpl; lia.
Qed.

End NewKeyFacts.

(** X24.  The column name derived from a label is shorter or as long as
    the label and is left alone when standardised again; a label with
    none of the six rewritten characters is its own column name. *)
Theorem new_key_idempotent (key : str) :
  new_key (new_key key) = new_key key /\
  (length (new_key key) <= length key)%nat /\
  ((forall c : N, In c key -> rewritten c = false) -> new_key key = key).
Proof.
  split; [|split].
  - apply new_key_clean. intros c. rewrite new_key_tokens, in_flat_map.
    intros (c0 & _ & H). exact (token_clean c0 c H).
  - rewrite new_key_tokens. induction key as [|c key IH]; [apply le_n|].
    cbn [flat_map]. rewrite length_app. pose proof (token_short c).
    cbn [length]. lia.
  - apply new_key_clean.
Qed.

Lemma new_key_idempotent_witness :
  new_key (str_of_string "RMS_ML") = str_of_string "RMS_ML".
Proof.
  apply (proj2 (proj2 (new_key_idempotent (str_of_string "RMS_ML")))).
  intros c Hc. simpl in Hc.
  repeat (destruct Hc as [<-|Hc]; [reflexivity|]). destruct Hc.
Defined.

(** * resize_video.py *)

(** ** The region cut out of a frame *)

(** X26.  In a frame of at least one pixel each way, the region
    [resize_with_opencv] cuts out starts inside the frame and does not
    reach beyond it; a region of interest that lies inside the frame is
    cut out as it is. *)
Theorem crop_region_inside (width height x y w h : Z) :
  (1 <= width)%Z -> (1 <= height)%Z ->
  let '(x', y', w', h') := crop_region width height (x, y, w, h) in
  (0 <= x' < width)%Z /\ (0 <= y' < height)%Z /\
  (x' + w' <= width)%Z /\ (y' + h' <= height)%Z /\
  ((0 <= x)%Z -> (0 <= y)%Z -> (1 <= w)%Z -> (1 <= h)%Z ->
   (x + w <= width)%Z -> (y + h <= height)%Z ->
   (x', y', w', h') = (x, y, w, h)).
Proof.
  intros Hw Hh. unfold crop_region.
  repeat split; try lia.
  intros Hx Hy Hw1 Hh1 Hxw Hyh.
  replace (Z.max 0 (Z.min x (width - 1))) with x by lia.
  replace (Z.max 0 (Z.min y (height - 1))) with y by lia.
  replace (Z.min w (width - x)) with w by lia.
  replace (Z.min h (height - y)) with h by lia.
  reflexivity.
Qed.

Lemma crop_region_inside_witness :
  crop_region 640 480 (600, 10, 100, 100)%Z = (600, 10, 40, 100)%Z /\
  crop_region 640 480 (10, 20, 100, 200)%Z = (10, 20, 100, 200)%Z.
Proof.
  split; [reflexivity|].
  apply (crop_region_inside 640 480 10 20 100 200); lia.
Defined.

(** ** Selecting the region of interest with the mouse *)

Section SelectorFacts.

Lemma draw_rectangle_ok (s : ROISelector) (event : mouse_event) (x y : Z) :
  selector_ok s -> selector_ok (draw_rectangle s event x y).
Proof.
  intros [Hsel Hpos]. destruct event; cbn [draw_rectangle]; try (split; assumption).
  destruct (Z.gtb_spec (Z.abs (x - ix s)) 0) as [Hw|Hw];
    destruct (Z.gtb_spec (Z.abs (y - iy s)) 0) as [Hh|Hh];
    cbn [andb]; try (split; assumption).
  split; cbn [roi roi_selected].
  - split; [discriminate | reflexivity].
  - intros x0 y0 w0 h0 E. injection E as <- <- <- <-. lia.
Qed.

Lemma mouse_events_ok (events : list (mouse_event * Z * Z)) (s : ROISelector) :
  selector_ok s -> selector_ok (mouse_events s events).
Proof.
  revert s. induction events as [|e events IH]; intros s H; [exact H|].
  apply IH, draw_rectangle_ok, H.
Qed.

Lemma mouse_moves (moves : list (mouse_event * Z * Z)) (s : ROISelector) :
  Forall (fun e => fst (fst e) = EVENT_MOUSEMOVE) moves ->
  mouse_events s moves = s.
Proof.
  induction 1 as [|[[ev x] y] moves Hev _ IH]; [reflexivity|].
  cbn in Hev. subst ev. exact IH.
Qed.

Lemma mouse_events_app (s : ROISelector) (a b : list (mouse_event * Z * Z)) :
  mouse_events s (a ++ b) = mouse_events (mouse_events s a) b.
Proof. apply fold_left_app. Qed.

End SelectorFacts.

(** X27.  Whatever mouse events a fresh [ROISelector] receives, a
    region is recorded exactly when [roi_selected] is set, and a
    recorded region has a positive width and a positive height. *)
Theorem roi_selector_invariant (events : list (mouse_event * Z * Z)) :
  let s := mouse_events init events in
  (roi_selected s = true <-> roi s <> None) /\
  (forall x y w h : Z, roi s = Some (x, y, w, h) -> (0 < w)%Z /\ (0 < h)%Z).
Proof.
  apply (mouse_events_ok events init). split.
  - cbn. split; [discriminate | congruence].
  - cbn. discriminate.
Qed.

(** X28.  A press at [(a, b)], any mouse moves, and a release at
    [(c, d)] record the rectangle spanned by the two points, whichever
    way the mouse was dragged, when the points differ in both
    coordinates; otherwise the release leaves the recorded region as it
    was. *)
Theorem roi_drag (s : ROISelector) (a b c d : Z)
        (moves : list (mouse_event * Z * Z)) :
  Forall (fun e => fst (fst e) = EVENT_MOUSEMOVE) moves ->
  let s' := mouse_events s ((EVENT_LBUTTONDOWN, a, b) :: moves
                            ++ [(EVENT_LBUTTONUP, c, d)]) in
  (a <> c -> b <> d ->
   roi s' = Some (Z.min a c, Z.min b d, Z.abs (c - a), Z.abs (d - b)) /\
   roi_selected s' = true) /\
  (a = c \/ b = d -> roi s' = roi s /\ roi_selected s' = roi_selected s) /\
  drawing s' = false.
Proof.
  intros Hm s'. subst s'.
  change (mouse_events s ((EVENT_LBUTTONDOWN, a, b) :: moves
                          ++ [(EVENT_LBUTTONUP, c, d)]))
    with (mouse_events (draw_rectangle s EVENT_LBUTTONDOWN a b)
                       (moves ++ [(EVENT_LBUTTONUP, c, d)])).
  rewrite mouse_events_app, (mouse_moves moves) by exact Hm.
  cbn [mouse_events fold_left fst snd draw_rectangle ix iy roi roi_selected].
  destruct (Z.gtb_spec (Z.abs (c - a)) 0) as [Hw|Hw];
    destruct (Z.gtb_spec (Z.abs (d - b)) 0) as [Hh|Hh];
    cbn [andb roi roi_selected drawing];
    (split; [|split; [|reflexivity]]);
    try (intros Hac Hbd; try lia; split; reflexivity);
    try (intros Hor; try lia; split; reflexivity).
Qed.

Lemma roi_drag_witness :
  roi (mouse_events init
         [(EVENT_LBUTTONDOWN, 300, 40); (EVENT_MOUSEMOVE, 200, 90);
          (EVENT_LBUTTONUP, 100, 240)]%Z)
  = Some (100, 40, 200, 200)%Z.
Proof.
  apply (roi_drag init 300 40 100 240 [(EVENT_MOUSEMOVE, 200, 90)]%Z);
    [repeat constructor | discriminate | discriminate].
Defined.

(** * The plot functions *)

Section PlotFacts.

Import Plots.

Lemma draw_head (a : artist) (fig : list artist) (others : list (list artist))
      (sv : list (str * list artist)) :
  draw a {| figures := fig :: others; saved := sv |}
  = Done {| figures := (fig ++ [a]) :: others; saved := sv |} tt.
Proof. reflexivity. Qed.

Lemma plot_head (x y : list Q) (fig : list artist) (others : list (list artist))
      (sv : list (str * list artist)) :
  length x = length y ->
  plot x y {| figures := fig :: others; saved := sv |}
  = Done {| figures := (fig ++ [Curve x y]) :: others; saved := sv |} tt.
Proof.
  intros H. unfold plot. rewrite H, Nat.eqb_refl. reflexivity.
Qed.

Lemma plot_mismatch (x y : list Q) (s : pyplot) :
  length x <> length y ->
  plot x y s = Failed s (ShapeMismatch (length x) (length y)).
Proof.
  intros H. unfold plot.
  destruct (Nat.eqb_spec (length x) (length y)); [contradiction | reflexivity].
Qed.

Lemma axis_ok (time cop : list Q) (fig : list artist)
      (others : list (list artist)) (sv : list (str * list artist)) :
  length time = length cop -> cop <> [] ->
  exists arts : list artist,
    stabilogram_axis time cop {| figures := fig :: others; saved := sv |}
    = Done {| figures := (fig ++ arts) :: others; saved := sv |} tt.
Proof.
  intros Hlen Hne. destruct cop as [|c cop]; [congruence|].
  unfold stabilogram_axis, seq_, bind.
  rewrite plot_head by exact Hlen.
  cbn [np_min np_max ret]. rewrite !draw_head.
  rewrite <- !app_assoc. eexists. reflexivity.
Qed.

Lemma axis_fail (time cop : list Q) (fig : list artist)
      (others : list (list artist)) (sv : list (str * list artist)) :
  length time <> length cop \/ cop = [] ->
  exists (fig' : list artist) (e : error),
    stabilogram_axis time cop {| figures := fig :: others; saved := sv |}
    = Failed {| figures := fig' :: others; saved := sv |} e.
Proof.
  intros H. unfold stabilogram_axis, seq_, bind.
  destruct (Nat.eq_dec (length time) (length cop)) as [Hlen|Hlen].
  - destruct H as [H|H]; [contradiction|]. subst cop.
    rewrite plot_head by exact Hlen. cbn [np_min raise].
    eexists _, _. reflexivity.
  - rewrite plot_mismatch by exact Hlen. eexists _, _. reflexivity.
Qed.

(** [np.argmax] and [np.max], scanning [a] after the prefix [pre] whose
    first maximum is at [bi]. *)
Lemma argmax_from_spec (a : list Q) :
  forall (pre : list Q) (bi : nat),
    first_maximum pre bi ->
    first_maximum (pre ++ a) (argmax_from bi (nth bi pre 0%Q) (length pre) a) /\
    fold_left (fun m y => if ltb m y then y else m) a (nth bi pre 0%Q)
    = nth (argmax_from bi (nth bi pre 0%Q) (length pre) a) (pre ++ a) 0%Q.
Proof.
  induction a as [|y a IH]; intros pre bi Hmax.
  - cbn [argmax_from fold_left]. rewrite app_nil_r. split; [exact Hmax | reflexivity].
  - destruct Hmax as (Hbi & Hall & Hfirst).
    cbn [argmax_from fold_left].
    replace (pre ++ y :: a) with ((pre ++ [y]) ++ a)
      by (rewrite <- app_assoc; reflexivity).
    assert (Hlen : length (pre ++ [y]) = Datatypes.S (length pre))
      by (rewrite length_app; simpl; lia).
    destruct (ltb (nth bi pre 0%Q) y) eqn:E.
    + apply ltb_lt in E.
      assert (Hy : nth (length pre) (pre ++ [y]) 0%Q = y)
        by (rewrite app_nth2, Nat.sub_diag by lia; reflexivity).
      assert (Hmax' : first_maximum (pre ++ [y]) (length pre)).
      { split; [lia|]. rewrite Hy. split.
        - intros j Hj. destruct (Nat.eq_dec j (length pre)) as [->|Hne].
          + rewrite Hy. apply Qle_refl.
          + rewrite app_nth1 by lia. apply Qlt_le_weak.
            eapply Qle_lt_trans; [apply Hall; lia | exact E].
        - intros j Hj. rewrite app_nth1 by lia.
          eapply Qle_lt_trans; [apply Hall; lia | exact E]. }
      pose proof (IH (pre ++ [y]) (length pre) Hmax') as IH'.
      rewrite Hy, Hlen in IH'. exact IH'.
    + assert (Hle : (y <= nth bi pre 0)%Q).
      { destruct (Qlt_le_dec (nth bi pre 0) y) as [Hlt|Hle]; [|exact Hle].
        apply ltb_lt in Hlt. congruence. }
      assert (Hb : nth bi (pre ++ [y]) 0%Q = nth bi pre 0%Q)
        by (apply app_nth1; exact Hbi).
      assert (Hmax' : first_maximum (pre ++ [y]) bi).
      { split; [lia|]. rewrite Hb. split.
        - intros j Hj. destruct (Nat.eq_dec j (length pre)) as [->|Hne].
          + rewrite app_nth2, Nat.sub_diag by lia. exact Hle.
          + rewrite app_nth1 by lia. apply Hall. lia.
        - intros j Hj. rewrite app_nth1 by lia. apply Hfirst, Hj. }
      pose proof (IH (pre ++ [y]) bi Hmax') as IH'.
      rewrite Hb, Hlen in IH'. exact IH'.
Qed.

Lemma argmax_first_maximum (x : Q) (a : list Q) :
  first_maximum (x :: a) (argmax_from 0 x 1 a) /\
  fold_left (fun m y => if ltb m y then y else m) a x
  = nth (argmax_from 0 x 1 a) (x :: a) 0%Q.
Proof.
  apply (argmax_from_spec a [x] 0%nat). split; [simpl; lia|]. split.
  - intros j Hj. simpl in Hj. replace j with 0%nat by lia. apply Qle_refl.
  - intros j Hj. lia.
Qed.

End PlotFacts.

(** X29.  [plot_stabilogram] succeeds exactly when the time vector and
    the two series have the same length and are not empty.  It then
    writes the two files [<output_path>_stabilogram.png] and
    [<output_path>_stabilogram.svg], both showing the same figure, and
    leaves no figure open.  Otherwise it raises with no file written and
    the figure it opened still open. *)
Theorem plot_stabilogram_outcome (time cop_x cop_y : list Q) (output_path : str)
        (s : Plots.pyplot) :
  (length time = length cop_x /\ length time = length cop_y /\ cop_x <> [] ->
   exists shown : list Plots.artist,
     Plots.plot_stabilogram time cop_x cop_y output_path s
     = Plots.Done
         {| Plots.figures := Plots.figures s;
            Plots.saved :=
              Plots.saved s
              ++ [(output_path ++ Plots.stabilogram_png, shown);
                  (output_path ++ Plots.stabilogram_svg, shown)] |} tt) /\
  (~ (length time = length cop_x /\ length time = length cop_y /\ cop_x <> []) ->
   exists (s' : Plots.pyplot) (e : Plots.error),
     Plots.plot_stabilogram time cop_x cop_y output_path s = Plots.Failed s' e /\
     Plots.saved s' = Plots.saved s /\
     length (Plots.figures s') = Datatypes.S (length (Plots.figures s))).
Proof.
  destruct s as [figs sv].
  unfold Plots.plot_stabilogram, Plots.seq_, Plots.bind.
  cbn [Plots.figure Plots.figures Plots.saved]. split.
  - intros (Hx & Hy & Hne).
    assert (Hney : cop_y <> []).
    { intros ->. destruct cop_x; [congruence|]. simpl in *. lia. }
    destruct (axis_ok time cop_x [] figs sv Hx Hne) as [ax ->].
    destruct (axis_ok time cop_y ([] ++ ax) figs sv Hy Hney) as [ay ->].
    exists (([] ++ ax) ++ ay).
    unfold Plots.savefig, Plots.close.
    cbn [Plots.figures Plots.saved tl].
    rewrite <- (app_assoc sv). reflexivity.
  - intros Hnot.
    destruct (Nat.eq_dec (length time) (length cop_x)) as [Hx|Hx];
      [destruct cop_x as [|c cop_x]|].
    + destruct (axis_fail time [] [] figs sv) as (fig' & e & ->);
        [right; reflexivity|].
      eexists _, _. split; [reflexivity|]. split; reflexivity.
    + destruct (axis_ok time (c :: cop_x) [] figs sv Hx) as [ax ->];
        [discriminate|].
      destruct (axis_fail time cop_y ([] ++ ax) figs sv) as (fig' & e & ->).
      * destruct (Nat.eq_dec (length time) (length cop_y)) as [Hy|Hy];
          [|left; exact Hy].
        exfalso. apply Hnot. repeat split; try assumption. discriminate.
      * eexists _, _. split; [reflexivity|]. split; reflexivity.
    + destruct (axis_fail time cop_x [] figs sv) as (fig' & e & ->);
        [left; exact Hx|].
      eexists _, _. split; [reflexivity|]. split; reflexivity.
Qed.

Lemma plot_stabilogram_outcome_witness :
  (exists shown : list Plots.artist,
      Plots.plot_stabilogram [0; 1]%Q [3; 4]%Q [5; 6]%Q (str_of_string "out")
                             {| Plots.figures := []; Plots.saved := [] |}
      = Plots.Done
          {| Plots.figures := [];
             Plots.saved :=
               [] ++ [(str_of_string "out" ++ Plots.stabilogram_png, shown);
                      (str_of_string "out" ++ Plots.stabilogram_svg, shown)] |} tt) /\
  (exists (s' : Plots.pyplot) (e : Plots.error),
      Plots.plot_stabilogram [] [] [] (str_of_string "out")
                             {| Plots.figures := []; Plots.saved := [] |}
      = Plots.Failed s' e /\
      Plots.saved s' = [] /\ length (Plots.figures s') = 1%nat).
Proof.
  split.
  - apply (proj1 (plot_stabilogram_outcome [0; 1]%Q [3; 4]%Q [5; 6]%Q
                    (str_of_string "out")
                    {| Plots.figures := []; Plots.saved := [] |})).
    repeat split; discriminate.
  - apply (proj2 (plot_stabilogram_outcome [] [] [] (str_of_string "out")
                    {| Plots.figures := []; Plots.saved := [] |})).
    intros (_ & _ & H). apply H. reflexivity.
Defined.

(** X30.  When each frequency axis is as long as its PSD and the PSDs
    are not empty, [plot_power_spectrum] writes [<output_path>_psd.png]
    and [<output_path>_psd.svg] and leaves no figure open; the figure
    saved shows, for each direction, a marker on the curve at the first
    index where the PSD is largest. *)
Theorem plot_power_spectrum_markers
        (freqs_ml psd_ml freqs_ap psd_ap : list Q) (output_path : str)
        (s : Plots.pyplot) :
  length freqs_ml = length psd_ml -> length freqs_ap = length psd_ap ->
  psd_ml <> [] -> psd_ap <> [] ->
  exists (i_ml i_ap : nat) (shown : list Plots.artist),
    first_maximum psd_ml i_ml /\ first_maximum psd_ap i_ap /\
    In (Plots.Marker (nth i_ml freqs_ml 0%Q) (nth i_ml psd_ml 0%Q)) shown /\
    In (Plots.Marker (nth i_ap freqs_ap 0%Q) (nth i_ap psd_ap 0%Q)) shown /\
    Plots.plot_power_spectrum freqs_ml psd_ml freqs_ap psd_ap output_path s
    = Plots.Done
        {| Plots.figures := Plots.figures s;
           Plots.saved :=
             Plots.saved s
             ++ [(output_path ++ Plots.psd_png, shown);
                 (output_path ++ Plots.psd_svg, shown)] |} tt.
Proof.
  intros Hml Hap Hneml Hneap. destruct s as [figs sv].
  destruct psd_ml as [|p psd_ml]; [congruence|].
  destruct psd_ap as [|q psd_ap]; [congruence|].
  destruct (argmax_first_maximum p psd_ml) as [Fml Mml].
  destruct (argmax_first_maximum q psd_ap) as [Fap Map].
  set (i := Plots.argmax_from 0 p 1 psd_ml) in *.
  set (j := Plots.argmax_from 0 q 1 psd_ap) in *.
  exists i, j.
  unfold Plots.plot_power_spectrum, Plots.seq_, Plots.bind.
  cbn [Plots.figure Plots.figures Plots.saved].
  rewrite plot_head by exact Hml. rewrite plot_head by exact Hap.
  cbn [Plots.np_max Plots.np_argmax Plots.ret]. fold i. fold j.
  unfold Plots.item.
  rewrite (nth_error_nth' freqs_ml 0%Q) by (rewrite Hml; apply Fml).
  rewrite (nth_error_nth' freqs_ap 0%Q) by (rewrite Hap; apply Fap).
  cbn [Plots.ret]. rewrite Mml, Map. rewrite !draw_head.
  unfold Plots.savefig, Plots.close.
  cbn [Plots.figures Plots.saved tl].
  rewrite <- (app_assoc sv). eexists.
  split; [exact Fml|]. split; [exact Fap|].
  split; [|split; [|reflexivity]].
  - rewrite !in_app_iff. cbn [In]. tauto.
  - rewrite !in_app_iff. cbn [In]. tauto.
Qed.

Lemma plot_power_spectrum_markers_witness :
  exists (i_ml i_ap : nat) (shown : list Plots.artist),
    first_maximum [1; 5; 5]%Q i_ml /\ first_maximum [2; 1; 0]%Q i_ap /\
    In (Plots.Marker (nth i_ml [0; 1; 2]%Q 0%Q) (nth i_ml [1; 5; 5]%Q 0%Q)) shown /\
    In (Plots.Marker (nth i_ap [0; 1; 2]%Q 0%Q) (nth i_ap [2; 1; 0]%Q 0%Q)) shown /\
    Plots.plot_power_spectrum [0; 1; 2]%Q [1; 5; 5]%Q [0; 1; 2]%Q [2; 1; 0]%Q
                              (str_of_string "out")
                              {| Plots.figures := []; Plots.saved := [] |}
    = Plots.Done
        {| Plots.figures := [];
           Plots.saved :=
             [] ++ [(str_of_string "out" ++ Plots.psd_png, shown);
                    (str_of_string "out" ++ Plots.psd_svg, shown)] |} tt.
Proof.
  apply (plot_power_spectrum_markers [0; 1; 2]%Q [1; 5; 5]%Q [0; 1; 2]%Q
           [2; 1; 0]%Q (str_of_string "out")
           {| Plots.figures := []; Plots.saved := [] |});
    try reflexivity; discriminate.
Defined.
